(** * Continuous verification: the verification engine of [cv/verifier.py]

    A shallow embedding of the polling engine ([Verifier]) together with
    the data model of [cv/models.py], and the properties of the engine
    that the specification states.

    Conventions of the embedding:
    - Python values that travel through the engine (decoded JSON documents,
      extracted values, thresholds, defaults) are terms of [PyVal];
    - a Python [float] that is a value (an extracted number, a
      threshold) is an IEEE 754 binary64 number, here the kernel's
      primitive [float]; the readings of the wall clock are exact
      rationals;
    - a Python [int] is a [Z];
    - a Python [str] is a [string]; the order on strings is the order of
      their code points, which on UTF-8 encoded text is the byte order;
    - a Python call that may raise is a value of [Result]: [Ok v] or
      [Raise e], where [e] records the exception class and [str(e)];
    - code that talks to the outside world (clock, sleep, HTTP) runs in the
      state-and-exception monad [M W] over a world [W];
    - logging calls have no effect on any value and are left out. *)

From Stdlib Require Import ZArith QArith List String Ascii Bool Lia Lqa.
From Stdlib Require Import DecimalString.
From Stdlib Require Import PrimFloat SpecFloat FloatOps.
Import ListNotations.

Open Scope string_scope.
Open Scope Z_scope.

(* ================================================================== *)
(** ** Python values and exceptions *)
(* ================================================================== *)

#[local] Set Warnings "-register-all".

(** The values of decoded JSON: [None], [bool], [int], [float], [str],
    [list] and [dict] (insertion ordered, keyed by strings). *)
Inductive PyVal : Type :=
| VNone : PyVal
| VBool (b : bool) : PyVal
| VInt (z : Z) : PyVal
| VFloat (f : float) : PyVal
| VStr (s : string) : PyVal
| VList (l : list PyVal) : PyVal
| VDict (d : list (string * PyVal)) : PyVal.

(** The exception classes the engine can meet.  All of them derive from
    [Exception]; [OverflowError] derives from [ArithmeticError], not from
    [ValueError].  [LibraryError] stands for any other subclass of
    [Exception] ([httpx.HTTPError], the parser errors of [jsonpath_ng],
    ...). *)
Inductive ExcClass : Type :=
| ValueError
| TypeError
| OverflowError
| LibraryError.

(** An exception: its class and the text [str(e)]. *)
Record Exc : Type := mkExc { exc_class : ExcClass; exc_str : string }.

Inductive Result (A : Type) : Type :=
| Ok (a : A)
| Raise (e : Exc).
Arguments Ok {A} a.
Arguments Raise {A} e.

Definition rbind {A B : Type} (r : Result A) (k : A -> Result B) : Result B :=
  match r with
  | Ok a => k a
  | Raise e => Raise e
  end.

Declare Scope result_scope.
Delimit Scope result_scope with result.
Notation "x <- r ;; k" := (rbind r (fun x => k))
  (at level 61, r at next level, right associativity) : result_scope.

Definition raise {A : Type} (c : ExcClass) (msg : string) : Result A :=
  Raise (mkExc c msg).

(* ================================================================== *)
(** ** The Python runtime the engine relies on *)
(* ================================================================== *)

(** The parts of the Python runtime and of [jsonpath_ng] whose algorithms
    live outside the repository are an interface:
    - [float_of_str s] is [float(s)] on a string, [None] when it raises
      [ValueError];
    - [float_repr f] is [repr(f)] of a float;
    - [str_repr s] is [repr(s)] of a string (quoted and escaped);
    - [jsonpath_parse p] is [jsonpath_ng.parse(p)];
    - [jsonpath_find e d] is the list of [match.value] for the matches of
      [e.find(d)], in document order. *)
Class Runtime : Type := {
  float_of_str : string -> option float;
  float_repr : float -> string;
  str_repr : string -> string;
  JsonPath : Type;
  jsonpath_parse : string -> Result JsonPath;
  jsonpath_find : JsonPath -> PyVal -> Result (list PyVal)
}.

(** [len(l)] of a list. *)
Definition len {A : Type} (l : list A) : Z := Z.of_nat (List.length l).

(** [str(z)] of an integer. *)
Definition int_str (z : Z) : string := NilZero.string_of_int (Z.to_int z).

(** [sep.join(l)]. *)
Fixpoint join (sep : string) (l : list string) : string :=
  match l with
  | [] => ""
  | [s] => s
  | s :: rest => s ++ sep ++ join sep rest
  end.

Section Builtins.
Context {RT : Runtime}.

(** [repr(v)]. *)
Fixpoint py_repr (v : PyVal) : string :=
  match v with
  | VNone => "None"
  | VBool true => "True"
  | VBool false => "False"
  | VInt z => int_str z
  | VFloat f => float_repr f
  | VStr s => str_repr s
  | VList l => "[" ++ join ", " (map py_repr l) ++ "]"
  | VDict d =>
      "{" ++ join ", " (map (fun kv => str_repr (fst kv) ++ ": " ++ py_repr (snd kv)) d) ++ "}"
  end.

(** [str(v)], which is also what an f-string field [{v}] prints. *)
Definition py_str (v : PyVal) : string :=
  match v with
  | VStr s => s
  | _ => py_repr v
  end.

(** [type(v).__name__]. *)
Definition py_type_name (v : PyVal) : string :=
  match v with
  | VNone => "NoneType"
  | VBool _ => "bool"
  | VInt _ => "int"
  | VFloat _ => "float"
  | VStr _ => "str"
  | VList _ => "list"
  | VDict _ => "dict"
  end.

(** [float(z)] of an integer: the nearest binary64, ties to even;
    [None] when the result is out of range ([OverflowError]). *)
Definition float_of_int (z : Z) : option float :=
  match binary_normalize prec emax z 0 false with
  | S754_infinity _ => None
  | S754_nan => None
  | sf => Some (SF2Prim sf)
  end.

(** [float(v)]. *)
Definition py_float (v : PyVal) : Result float :=
  match v with
  | VBool b => Ok (if b then PrimFloat.one else PrimFloat.zero)
  | VInt z =>
      match float_of_int z with
      | Some f => Ok f
      | None => raise OverflowError "int too large to convert to float"
      end
  | VFloat f => Ok f
  | VStr s =>
      match float_of_str s with
      | Some f => Ok f
      | None => raise ValueError ("could not convert string to float: " ++ str_repr s)
      end
  | _ =>
      raise TypeError
        ("float() argument must be a string or a real number, not '"
           ++ py_type_name v ++ "'")
  end.

(** [bool(v)]: Python truthiness. *)
Definition py_bool (v : PyVal) : bool :=
  match v with
  | VNone => false
  | VBool b => b
  | VInt z => negb (z =? 0)%Z
  | VFloat f => negb (PrimFloat.eqb f PrimFloat.zero)
  | VStr s => negb (s =? "")%string
  | VList l => match l with [] => false | _ => true end
  | VDict d => match d with [] => false | _ => true end
  end.

End Builtins.

(** [c.lower()] on one character.  Only the letters A-Z change; no
    character outside ASCII lowers to one of the letters of ["false"] or
    to ["0"], so for the membership test of [_convert_type] this agrees
    with Python's Unicode lowering. *)
Definition ascii_lower (c : ascii) : ascii :=
  let n := nat_of_ascii c in
  if ((65 <=? n)%nat && (n <=? 90)%nat)%bool then ascii_of_nat (n + 32) else c.

(** [s.lower()]. *)
Fixpoint lower (s : string) : string :=
  match s with
  | EmptyString => EmptyString
  | String c rest => String (ascii_lower c) (lower rest)
  end.

(** [s in (a, b, ...)] for a tuple of strings. *)
Definition str_in (s : string) (l : list string) : bool :=
  existsb (String.eqb s) l.

(* ================================================================== *)
(** ** Rich comparison of Python values *)
(* ================================================================== *)

(** The comparison value of a threshold: [int | float | str]
    ([ThresholdEvaluator.value] in [models.py]). *)
Inductive ThresholdValue : Type :=
| TInt (z : Z)
| TFloat (f : float)
| TStr (s : string).

Definition threshold_to_py (t : ThresholdValue) : PyVal :=
  match t with
  | TInt z => VInt z
  | TFloat f => VFloat f
  | TStr s => VStr s
  end.

(** Python numbers: [int] (with [bool] as its subclass) and [float]. *)
Inductive PyNum : Type :=
| NInt (z : Z)
| NFloat (f : float).

Definition as_num (v : PyVal) : option PyNum :=
  match v with
  | VBool b => Some (NInt (if b then 1 else 0))
  | VInt z => Some (NInt z)
  | VFloat f => Some (NFloat f)
  | _ => None
  end.

(** The exact order between an integer and a float, [None] for NaN.
    Python compares the two without rounding the integer. *)
Definition Z_float_compare (z : Z) (f : float) : option comparison :=
  match Prim2SF f with
  | S754_nan => None
  | S754_infinity s => Some (if s then Gt else Lt)
  | S754_zero _ => Some (z ?= 0)
  | S754_finite s m e =>
      let mz := if s then Z.neg m else Z.pos m in
      if 0 <=? e then Some (z ?= mz * 2 ^ e) else Some (z * 2 ^ (- e) ?= mz)
  end.

(** The order between two numbers, [None] when one of them is NaN. *)
Definition num_compare (a b : PyNum) : option comparison :=
  match a, b with
  | NInt x, NInt y => Some (x ?= y)
  | NInt x, NFloat y => Z_float_compare x y
  | NFloat x, NInt y => option_map CompOpp (Z_float_compare y x)
  | NFloat x, NFloat y =>
      match PrimFloat.compare x y with
      | FEq => Some Eq
      | FLt => Some Lt
      | FGt => Some Gt
      | FNotComparable => None
      end
  end.

(** The six comparison operators of [ThresholdEvaluator.operator]. *)
Inductive CmpOp : Type := OpLt | OpGt | OpLe | OpGe | OpEq | OpNe.

Definition op_symbol (o : CmpOp) : string :=
  match o with
  | OpLt => "<" | OpGt => ">" | OpLe => "<=" | OpGe => ">=" | OpEq => "==" | OpNe => "!="
  end.

(** What an operator answers on an order; [None] is "unordered" (NaN):
    every operator is false there, except [!=]. *)
Definition op_holds (o : CmpOp) (c : option comparison) : bool :=
  match o, c with
  | OpLt, Some Lt => true
  | OpGt, Some Gt => true
  | OpLe, Some Lt | OpLe, Some Eq => true
  | OpGe, Some Gt | OpGe, Some Eq => true
  | OpEq, Some Eq => true
  | OpNe, Some Eq => false
  | OpNe, _ => true
  | _, _ => false
  end.

(** [value <op> expected] for a decoded value and a threshold.  Numbers
    compare with numbers and strings with strings.  On any other pair,
    [==] is false and [!=] is true, and an ordering operator raises
    [TypeError]. *)
Definition py_compare (o : CmpOp) (value : PyVal) (expected : ThresholdValue)
  : Result bool :=
  match as_num value, as_num (threshold_to_py expected) with
  | Some a, Some b => Ok (op_holds o (num_compare a b))
  | _, _ =>
      match value, expected with
      | VStr a, TStr b => Ok (op_holds o (Some (String.compare a b)))
      | _, _ =>
          match o with
          | OpEq => Ok false
          | OpNe => Ok true
          | _ =>
              raise TypeError
                ("'" ++ op_symbol o ++ "' not supported between instances of '"
                   ++ py_type_name value ++ "' and '"
                   ++ py_type_name (threshold_to_py expected) ++ "'")
          end
      end
  end.

(* ================================================================== *)
(** ** The data model ([cv/models.py]) *)
(* ================================================================== *)

(** [QueryConfig].  [body] is a [str], a [dict] or [None];
    [query_timeout] is the field [timeout]. *)
Record QueryConfig : Type := mkQueryConfig {
  endpoint : string;
  method : string;
  headers : list (string * string);
  body : PyVal;
  params : list (string * PyVal);
  query_timeout : Z
}.

(** [ExtractConfig].  [default] is [VNone] when no default is configured. *)
Record ExtractConfig : Type := mkExtractConfig {
  path : string;
  type : string;
  default : PyVal
}.

(** [ThresholdEvaluator]. *)
Record ThresholdEvaluator : Type := mkThresholdEvaluator {
  operator : string;
  value : ThresholdValue
}.

(** [Check]. *)
Record Check : Type := mkCheck {
  name : string;
  description : option string;
  query : QueryConfig;
  extract : ExtractConfig;
  evaluate : ThresholdEvaluator
}.

(** [EvaluationMode]. *)
Inductive EvaluationMode : Type := ALL_PASS | ANY_PASS | THRESHOLD.

(** [EvaluationConfig]. *)
Record EvaluationConfig : Type := mkEvaluationConfig {
  mode : EvaluationMode;
  min_passed : option Z
}.

(** [OutputConfig]; the output format only matters to the report writer. *)
Record OutputConfig : Type := mkOutputConfig {
  include_details : bool
}.

(** [VerificationConfig].  The endpoint, authentication and TLS fields
    are consumed by the HTTP client alone and are part of the world.
    The validator requires [checks] to be non-empty ([min_length=1]) and,
    in mode [THRESHOLD], [min_passed] not to exceed their number. *)
Record VerificationConfig : Type := mkVerificationConfig {
  checks : list Check;
  evaluation : EvaluationConfig;
  output : OutputConfig;
  poll_interval : Z;
  timeout : Z
}.

(** [CheckResult].  [result_value] is the field [value]; [expected] is a
    string, or [None] for an error; [timestamp] is a clock reading. *)
Record CheckResult : Type := mkCheckResult {
  check_name : string;
  success : bool;
  result_value : PyVal;
  expected : PyVal;
  message : string;
  timestamp : Q;
  poll_number : Z
}.

(** [VerificationStatus]. *)
Inductive VerificationStatus : Type := PASSED | FAILED | TIMEOUT.

(** [VerificationResult]. *)
Record VerificationResult : Type := mkVerificationResult {
  status : VerificationStatus;
  checks_passed : Z;
  checks_failed : Z;
  total_polls : Z;
  duration : Z;
  detailed_results : list CheckResult;
  failure_reason : option string
}.

(** The validators of [models.py].
    [EvaluationConfig.validate_threshold_mode]: in mode [THRESHOLD],
    [min_passed] is present and at least 1. *)
Definition EvaluationConfig_valid (e : EvaluationConfig) : Prop :=
  mode e = THRESHOLD -> exists k, min_passed e = Some k /\ 1 <= k.

(* ================================================================== *)
(** ** The stages of one check ([cv/verifier.py]) *)
(* ================================================================== *)

Section Stages.
Context {RT : Runtime}.
Open Scope result_scope.

(** [try: body except Exception as e: handler(e)] on a pure stage. *)
Definition try_except {A : Type} (body : Result A) (handler : Exc -> Result A)
  : Result A :=
  match body with
  | Ok a => Ok a
  | Raise e => handler e
  end.

(** [Verifier._extract_value]. *)
Definition _extract_value (data : PyVal) (path : string) : Result PyVal :=
  try_except
    (jsonpath_expr <- jsonpath_parse path ;;
     matches <- jsonpath_find jsonpath_expr data ;;
     match matches with
     | [] =>
         raise ValueError
           ("JSONPath '" ++ path ++ "' found no matches in response: " ++ py_str data)
     | m :: _ => Ok m
     end)
    (fun e =>
       raise ValueError
         ("Failed to extract value using JSONPath '" ++ path ++ "': " ++ exc_str e)).

(** The [match expected_type] of [Verifier._convert_type], before the
    [except] clause. *)
Definition convert_body (value : PyVal) (expected_type : string) : Result PyVal :=
  if (expected_type =? "number")%string then
    f <- py_float value ;; Ok (VFloat f)
  else if (expected_type =? "string")%string then
    Ok (VStr (py_str value))
  else if (expected_type =? "boolean")%string then
    match value with
    | VBool _ => Ok value
    | VStr s => Ok (VBool (negb (str_in (lower s) ["false"; "0"; ""])))
    | _ => Ok (VBool (py_bool value))
    end
  else if (expected_type =? "json")%string then
    Ok value
  else
    raise ValueError ("Unknown type: " ++ expected_type).

(** [Verifier._convert_type]: the clause [except (ValueError, TypeError)]
    handles these two classes only; anything else propagates. *)
Definition _convert_type (value : PyVal) (expected_type : string) (default : PyVal)
  : Result PyVal :=
  match convert_body value expected_type with
  | Ok v => Ok v
  | Raise e =>
      match exc_class e with
      | ValueError | TypeError =>
          match default with
          | VNone =>
              raise ValueError
                ("Cannot convert '" ++ py_str value ++ "' to " ++ expected_type
                   ++ " and no default provided")
          | _ => Ok default
          end
      | _ => Raise e
      end
  end.

(** [Verifier._evaluate_check]. *)
Definition _evaluate_check (evaluator : ThresholdEvaluator) (v : PyVal)
  : Result (bool * string) :=
  let expected := value evaluator in
  let op := operator evaluator in
  success <-
    (if (op =? "<")%string then py_compare OpLt v expected
     else if (op =? ">")%string then py_compare OpGt v expected
     else if (op =? "<=")%string then py_compare OpLe v expected
     else if (op =? ">=")%string then py_compare OpGe v expected
     else if (op =? "==")%string then py_compare OpEq v expected
     else if (op =? "!=")%string then py_compare OpNe v expected
     else raise ValueError ("Unknown operator: " ++ op)) ;;
  let message :=
    if (success : bool) then
      "value " ++ py_str v ++ " " ++ op ++ " " ++ py_str (threshold_to_py expected)
    else
      "value " ++ py_str v ++ " not " ++ op ++ " " ++ py_str (threshold_to_py expected) in
  Ok (success, message).

End Stages.

(* ================================================================== *)
(** ** The world: clock, sleep and HTTP transport *)
(* ================================================================== *)

(** Computations that read or change the world and may raise.  The
    world survives an exception. *)
Definition M (W A : Type) : Type := W -> Result A * W.

Definition ret {W A : Type} (a : A) : M W A := fun w => (Ok a, w).

Definition bind {W A B : Type} (m : M W A) (k : A -> M W B) : M W B :=
  fun w =>
    match m w with
    | (Ok a, w') => k a w'
    | (Raise e, w') => (Raise e, w')
    end.

(** A pure stage run inside the world. *)
Definition lift {W A : Type} (r : Result A) : M W A := fun w => (r, w).

(** A total reading of the world. *)
Definition reading {W A : Type} (f : W -> A * W) : M W A :=
  fun w => let (a, w') := f w in (Ok a, w').

(** [try: body except Exception as e: handler(e)]. *)
Definition try_catch {W A : Type} (m : M W A) (handler : Exc -> M W A) : M W A :=
  fun w =>
    match m w with
    | (Ok a, w') => (Ok a, w')
    | (Raise e, w') => handler e w'
    end.

Declare Scope monad_scope.
Delimit Scope monad_scope with monad.
Notation "x <- m ;; k" := (bind m (fun x => k))
  (at level 61, m at next level, right associativity) : monad_scope.

(** What the engine asks of its surroundings.  Wall-clock readings are
    seconds as exact rationals (the rounding of the clock's binary64
    arithmetic is not modelled).
    - [time_time] is [time.time()];
    - [time_sleep d] is [time.sleep(d)];
    - [datetime_now] is [datetime.now()];
    - [http_request q] is [HTTPClient.request(q)]: the decoded JSON
      document, or the exception of the transport. *)
Class World (W : Type) : Type := {
  time_time : W -> Q * W;
  time_sleep : Z -> M W unit;
  datetime_now : W -> Q * W;
  http_request : QueryConfig -> M W PyVal
}.

(** [a < b] on clock readings. *)
Definition Qltb (a b : Q) : bool := negb (Qle_bool b a).

(** [int(x)] of a clock difference: truncation towards zero. *)
Definition py_int (x : Q) : Z := Z.quot (Qnum x) (Z.pos (Qden x)).

(* ================================================================== *)
(** ** The verifier *)
(* ================================================================== *)

Section Verifier.
Context {RT : Runtime} {W : Type} {WD : World W}.

(** [self.config]. *)
Variable config : VerificationConfig.

Open Scope monad_scope.

(** [Verifier._execute_check]. *)
Definition _execute_check (check : Check) (poll_number : Z) : M W CheckResult :=
  response <- http_request (query check) ;;
  v <- lift (_extract_value response (path (extract check))) ;;
  v <- lift (_convert_type v (type (extract check)) (default (extract check))) ;;
  sm <- lift (_evaluate_check (evaluate check) v) ;;
  let expected :=
    operator (evaluate check) ++ " " ++ py_str (threshold_to_py (value (evaluate check))) in
  now <- reading datetime_now ;;
  ret {| check_name := name check;
         success := fst sm;
         result_value := v;
         expected := VStr expected;
         message := snd sm;
         timestamp := now;
         poll_number := poll_number |}.

(** The result built by the [except Exception] clause of
    [Verifier._execute_poll]. *)
Definition error_result (check : Check) (poll_number : Z) (e : Exc) (now : Q)
  : CheckResult :=
  {| check_name := name check;
     success := false;
     result_value := VNone;
     expected := VNone;
     message := "Error: " ++ exc_str e;
     timestamp := now;
     poll_number := poll_number |}.

(** The [for check in self.config.checks] loop of
    [Verifier._execute_poll], with the list [results] built so far. *)
Fixpoint poll_checks (todo : list Check) (poll_number : Z) (results : list CheckResult)
  : M W (list CheckResult) :=
  match todo with
  | [] => ret results
  | check :: rest =>
      results <-
        try_catch
          (result <- _execute_check check poll_number ;;
           ret (results ++ [result])%list)
          (fun e =>
             now <- reading datetime_now ;;
             ret (results ++ [error_result check poll_number e now])%list) ;;
      poll_checks rest poll_number results
  end.

(** [Verifier._execute_poll]. *)
Definition _execute_poll (poll_number : Z) : M W (list CheckResult) :=
  poll_checks (checks config) poll_number [].

(** [Verifier._evaluate_overall].  [EvaluationMode] has three members, so
    the trailing default [return] of the source is never reached. *)
Definition _evaluate_overall (poll_results : list CheckResult)
  : VerificationStatus * string :=
  let passed_count := len (filter success poll_results) in
  let failed_count := len poll_results - passed_count in
  match mode (evaluation config) with
  | ALL_PASS =>
      if passed_count =? len poll_results then (PASSED, "All checks passed")
      else (FAILED, int_str failed_count ++ " check(s) failed")
  | ANY_PASS =>
      if 0 <? passed_count then (PASSED, "At least one check passed")
      else (FAILED, "All checks failed")
  | THRESHOLD =>
      let min_passed :=
        match min_passed (evaluation config) with
        | Some k => if k =? 0 then 1 else k
        | None => 1
        end in
      if min_passed <=? passed_count then
        (PASSED, int_str passed_count ++ " checks passed (>= " ++ int_str min_passed ++ ")")
      else
        (FAILED,
         "Only " ++ int_str passed_count ++ " checks passed (need >= "
           ++ int_str min_passed ++ ")")
  end.

(** [Verifier._get_latest_results]. *)
Definition _get_latest_results (all_results : list CheckResult) (poll_count : Z)
  : list CheckResult :=
  filter (fun r => poll_number r =? poll_count) all_results.

(** [Verifier._build_result]. *)
Definition _build_result (status : VerificationStatus) (all_results : list CheckResult)
    (poll_count : Z) (duration : Z) (failure_reason : option string)
  : VerificationResult :=
  let latest_poll_results := _get_latest_results all_results poll_count in
  let checks_passed := len (filter success latest_poll_results) in
  let checks_failed := len latest_poll_results - checks_passed in
  {| status := status;
     checks_passed := checks_passed;
     checks_failed := checks_failed;
     total_polls := poll_count;
     duration := duration;
     detailed_results := if include_details (output config) then all_results else [];
     failure_reason := failure_reason |}.

(** How the [while] loop of [Verifier.run] is left: by the [return] of a
    passing poll, or by its condition or its [break]. *)
Inductive LoopOutcome : Type :=
| PassedInLoop (poll_count : Z) (all_results : list CheckResult)
| LoopEnded (poll_count : Z) (all_results : list CheckResult).

(** The [while time.time() < end_time] loop of [Verifier.run].  [fuel]
    bounds the number of iterations; [None] means it ran out. *)
Fixpoint poll_loop (fuel : nat) (end_time : Q) (poll_count : Z)
    (all_results : list CheckResult) : M W (option LoopOutcome) :=
  match fuel with
  | O => ret None
  | S fuel' =>
      now <- reading time_time ;;
      if Qltb now end_time then
        let poll_count := poll_count + 1 in
        _ <- reading time_time ;;
        poll_results <- _execute_poll poll_count ;;
        let all_results := (all_results ++ poll_results)%list in
        match fst (_evaluate_overall poll_results) with
        | PASSED => ret (Some (PassedInLoop poll_count all_results))
        | _ =>
            now <- reading time_time ;;
            if Qltb (now + inject_Z (poll_interval config)) end_time then
              _ <- time_sleep (poll_interval config) ;;
              poll_loop fuel' end_time poll_count all_results
            else
              ret (Some (LoopEnded poll_count all_results))
        end
      else
        ret (Some (LoopEnded poll_count all_results))
  end.

(** The code of [Verifier.run] after the loop is left. *)
Definition finish (start_time : Q) (o : LoopOutcome) : M W VerificationResult :=
  match o with
  | PassedInLoop poll_count all_results =>
      now <- reading time_time ;;
      let duration := py_int (now - start_time) in
      ret (_build_result PASSED all_results poll_count duration None)
  | LoopEnded poll_count all_results =>
      now <- reading time_time ;;
      let duration := py_int (now - start_time) in
      match all_results with
      | _ :: _ =>
          let latest_poll_results := _get_latest_results all_results poll_count in
          match fst (_evaluate_overall latest_poll_results) with
          | PASSED => ret (_build_result PASSED all_results poll_count duration None)
          | _ =>
              ret (_build_result FAILED all_results poll_count duration
                     (Some ("Checks did not pass within timeout (" ++ int_str duration ++ "s)")))
          end
      | [] =>
          ret (_build_result TIMEOUT all_results poll_count duration
                 (Some "Timeout before any polls completed"))
      end
  end.

(** [Verifier.run]. *)
Definition run (fuel : nat) : M W (option VerificationResult) :=
  start_time <- reading time_time ;;
  let end_time := (start_time + inject_Z (timeout config))%Q in
  o <- poll_loop fuel end_time 0 [] ;;
  match o with
  | None => ret None
  | Some o => r <- finish start_time o ;; ret (Some r)
  end.

End Verifier.

(* ================================================================== *)
(** ** Vocabulary of the statements *)
(* ================================================================== *)

(** The number of successful results of a poll. *)
Definition successes (poll_results : list CheckResult) : Z :=
  len (filter success poll_results).

(** [sub] occurs in [s]. *)
Definition includes (sub s : string) : Prop :=
  exists pre post, s = pre ++ sub ++ post.

(** The operands on which [py_compare] answers: equality tests always,
    ordering tests between two numbers or two strings. *)
Definition comparable (o : CmpOp) (v : PyVal) (e : ThresholdValue) : bool :=
  match o with
  | OpEq | OpNe => true
  | _ =>
      match as_num v, e with
      | Some _, TInt _ | Some _, TFloat _ => true
      | _, _ =>
          match v, e with
          | VStr _, TStr _ => true
          | _, _ => false
          end
      end
  end.

(** A computation never turns the clock back. *)
Definition advances {W A : Type} (clock : W -> Q) (m : M W A) : Prop :=
  forall w, (clock w <= clock (snd (m w)))%Q.

(** A number of iterations that the loop of [run] cannot exceed when the
    clock behaves: [timeout // poll_interval + 2]. *)
Definition enough_fuel (config : VerificationConfig) : nat :=
  S (Z.to_nat (timeout config / poll_interval config + 1)).

Section Vocabulary.
Context {RT : Runtime} {W : Type} {WD : World W}.
Variable config : VerificationConfig.

(** One iteration of the loop of [_execute_poll]: the result that the
    iteration appends for [check]. *)
Definition check_result (check : Check) (poll_number : Z) : M W CheckResult :=
  try_catch
    (_execute_check check poll_number)
    (fun e => bind (reading datetime_now)
                (fun now => ret (error_result check poll_number e now))).

(** The trace of one poll: from world [w], executing the checks in order
    yields the results [rs] and leaves world [w'].  Each check contributes
    one result: the one [_execute_check] returned, or the error result of
    the exception it raised. *)
Inductive poll_trace (n : Z) : list Check -> W -> list CheckResult -> W -> Prop :=
| trace_done (w : W) : poll_trace n [] w [] w
| trace_ok (c : Check) (cs : list Check) (w w1 w2 : W)
    (r : CheckResult) (rs : list CheckResult) :
    _execute_check c n w = (Ok r, w1) ->
    poll_trace n cs w1 rs w2 ->
    poll_trace n (c :: cs) w (r :: rs) w2
| trace_error (c : Check) (cs : list Check) (w w1 w2 : W)
    (e : Exc) (rs : list CheckResult) :
    _execute_check c n w = (Raise e, w1) ->
    poll_trace n cs (snd (datetime_now w1)) rs w2 ->
    poll_trace n (c :: cs) w
      (error_result c n e (fst (datetime_now w1)) :: rs) w2.

(** The results of poll [p]: one per configured check, in the order of
    the checks, all tagged [p]. *)
Definition poll_block (p : Z) (block : list CheckResult) : Prop :=
  map check_name block = map name (checks config) /\
  Forall (fun r => poll_number r = p) block.

(** The cumulative list after [p] polls: the blocks of polls 1 to [p]. *)
Inductive polls_upto : Z -> list CheckResult -> Prop :=
| polls_zero : polls_upto 0 []
| polls_next (p : Z) (rs block : list CheckResult) :
    0 <= p ->
    polls_upto p rs ->
    poll_block (p + 1) block ->
    polls_upto (p + 1) (rs ++ block)%list.

Definition outcome_polls (o : LoopOutcome) : Z :=
  match o with
  | PassedInLoop poll_count _ => poll_count
  | LoopEnded poll_count _ => poll_count
  end.

Definition outcome_results (o : LoopOutcome) : list CheckResult :=
  match o with
  | PassedInLoop _ all_results => all_results
  | LoopEnded _ all_results => all_results
  end.

(** What the loop of [run] guarantees on leaving, when entered after
    [count0] polls with the list [all0]: the last poll is poll [p + 1]
    with results [block], appended to the list [rs] of polls 1 to [p],
    and it passed if and only if the loop was left by its [return];
    or no poll was run at all. *)
Inductive loop_post (count0 : Z) (all0 : list CheckResult) : LoopOutcome -> Prop :=
| post_passed (p : Z) (rs block : list CheckResult) :
    count0 <= p ->
    polls_upto p rs ->
    poll_block (p + 1) block ->
    fst (_evaluate_overall config block) = PASSED ->
    loop_post count0 all0 (PassedInLoop (p + 1) (rs ++ block)%list)
| post_failed (p : Z) (rs block : list CheckResult) :
    count0 <= p ->
    polls_upto p rs ->
    poll_block (p + 1) block ->
    fst (_evaluate_overall config block) <> PASSED ->
    loop_post count0 all0 (LoopEnded (p + 1) (rs ++ block)%list)
| post_none : loop_post count0 all0 (LoopEnded count0 all0).

End Vocabulary.

(* ================================================================== *)
(** ** A reference runtime and a mock world *)
(* ================================================================== *)

(** An instance of [Runtime] and of [World] on which the engine can be
    run, in the manner of the repository's tests, which queue canned
    HTTP responses.  The runtime is exact on the inputs the examples use:
    - [float(s)] on strings of decimal digits;
    - [repr] of the floats that are integers below [10^16], of the
      infinities and of NaN;
    - [repr] of strings that need no escaping;
    - JSONPath expressions [$] followed by steps [.name], [[n]] and
      [[*]], where [.name] selects a key of a dict, [[n]] an element of a
      list and [[*]] all elements of a list. *)

Definition is_digit (c : ascii) : bool :=
  let n := nat_of_ascii c in ((48 <=? n)%nat && (n <=? 57)%nat)%bool.

Fixpoint digits_value (s : string) (acc : Z) : option Z :=
  match s with
  | EmptyString => Some acc
  | String c rest =>
      if is_digit c
      then digits_value rest (10 * acc + Z.of_nat (nat_of_ascii c - 48))
      else None
  end.

Definition ref_float_of_str (s : string) : option float :=
  match s with
  | EmptyString => None
  | _ =>
      match digits_value s 0 with
      | Some z =>
          match binary_normalize prec emax z 0 false with
          | S754_nan => None
          | sf => Some (SF2Prim sf)
          end
      | None => None
      end
  end.

Definition ref_float_repr (f : float) : string :=
  let sign (s : bool) := if s then "-" else "" in
  match Prim2SF f with
  | S754_nan => "nan"
  | S754_infinity s => sign s ++ "inf"
  | S754_zero s => sign s ++ "0.0"
  | S754_finite s m e =>
      let opaque := sign s ++ int_str (Z.pos m) ++ "*2**" ++ int_str e in
      let z :=
        if 0 <=? e then Some (Z.pos m * 2 ^ e)
        else if Z.pos m mod 2 ^ (- e) =? 0 then Some (Z.pos m / 2 ^ (- e))
        else None in
      match z with
      | Some z => if z <? 10 ^ 16 then sign s ++ int_str z ++ ".0" else opaque
      | None => opaque
      end
  end.

Definition ref_str_repr (s : string) : string := "'" ++ s ++ "'".

(** One step of a path. *)
Inductive Step : Type :=
| Field (k : string)
| Index (n : nat)
| Wildcard.

Inductive ParseState : Type :=
| AtStep
| InField (acc : string)
| InBracket (acc : string).

Definition bracket_step (acc : string) : option Step :=
  if (acc =? "*")%string then Some Wildcard
  else
    match acc with
    | EmptyString => None
    | _ => option_map (fun z => Index (Z.to_nat z)) (digits_value acc 0)
    end.

Definition close_field (acc : string) (steps : list Step) : option (list Step) :=
  match acc with
  | EmptyString => None
  | _ => Some (Field acc :: steps)
  end.

Fixpoint parse_steps (s : string) (st : ParseState) (steps : list Step)
  : option (list Step) :=
  match s with
  | EmptyString =>
      match st with
      | AtStep => Some (rev steps)
      | InField acc => option_map (@rev Step) (close_field acc steps)
      | InBracket _ => None
      end
  | String c rest =>
      match st with
      | AtStep =>
          if (c =? ".")%char then parse_steps rest (InField "") steps
          else if (c =? "[")%char then parse_steps rest (InBracket "") steps
          else None
      | InField acc =>
          if (c =? ".")%char then
            match close_field acc steps with
            | Some steps' => parse_steps rest (InField "") steps'
            | None => None
            end
          else if (c =? "[")%char then
            match close_field acc steps with
            | Some steps' => parse_steps rest (InBracket "") steps'
            | None => None
            end
          else parse_steps rest (InField (acc ++ String c "")) steps
      | InBracket acc =>
          if (c =? "]")%char then
            match bracket_step acc with
            | Some step => parse_steps rest AtStep (step :: steps)
            | None => None
            end
          else parse_steps rest (InBracket (acc ++ String c "")) steps
      end
  end.

Definition ref_jsonpath_parse (p : string) : Result (list Step) :=
  match p with
  | String "$" rest =>
      match parse_steps rest AtStep [] with
      | Some steps => Ok steps
      | None => raise LibraryError ("Parse error in path " ++ p)
      end
  | _ => raise LibraryError ("Parse error in path " ++ p)
  end.

Definition step_find (st : Step) (v : PyVal) : list PyVal :=
  match st, v with
  | Field k, VDict d =>
      match find (fun kv => (fst kv =? k)%string) d with
      | Some kv => [snd kv]
      | None => []
      end
  | Index n, VList l =>
      match nth_error l n with
      | Some x => [x]
      | None => []
      end
  | Wildcard, VList l => l
  | _, _ => []
  end.

Definition ref_jsonpath_find (steps : list Step) (data : PyVal) : Result (list PyVal) :=
  Ok (fold_left (fun nodes st => flat_map (step_find st) nodes) steps [data]).

#[global] Instance ref_runtime : Runtime := {|
  float_of_str := ref_float_of_str;
  float_repr := ref_float_repr;
  str_repr := ref_str_repr;
  JsonPath := list Step;
  jsonpath_parse := ref_jsonpath_parse;
  jsonpath_find := ref_jsonpath_find
|}.

(** The mock world: a clock that only moves when the engine sleeps or a
    request is served, and a queue of responses served in order, each
    after [mock_latency] seconds. *)
Record MockWorld : Type := mkMockWorld {
  mock_clock : Q;
  mock_latency : nat;
  mock_responses : list (Result PyVal)
}.

Definition mock_time (w : MockWorld) : Q * MockWorld := (mock_clock w, w).

Definition mock_sleep (d : Z) : M MockWorld unit :=
  fun w =>
    if d <? 0 then (raise ValueError "sleep length must be non-negative", w)
    else
      (Ok tt,
       {| mock_clock := Qred (mock_clock w + inject_Z d);
          mock_latency := mock_latency w;
          mock_responses := mock_responses w |}).

Definition mock_request (q : QueryConfig) : M MockWorld PyVal :=
  fun w =>
    match mock_responses w with
    | [] => (raise LibraryError "No response can be found", w)
    | r :: rest =>
        (r,
         {| mock_clock := Qred (mock_clock w + inject_Z (Z.of_nat (mock_latency w)));
            mock_latency := mock_latency w;
            mock_responses := rest |})
    end.

#[global] Instance mock_world : World MockWorld := {|
  time_time := mock_time;
  time_sleep := mock_sleep;
  datetime_now := mock_time;
  http_request := mock_request
|}.

(** The documents and the checks of [tests/test_verifier.py]. *)
Definition prometheus_response (v : string) : PyVal :=
  VDict [("data", VDict [("result", VList [VDict [("value", VList [VInt 0; VStr v])]])])].

Definition error_count_check (check_name : string) : Check :=
  {| name := check_name;
     description := None;
     query := {| endpoint := "/api/v1/query"; method := "POST"; headers := [];
                 body := VNone; params := []; query_timeout := 30 |};
     extract := {| path := "$.data.result[0].value[1]"; type := "number";
                   default := VNone |};
     evaluate := {| operator := "<"; value := TInt 10 |} |}.

Definition test_config (cs : list Check) (details : bool) (interval limit : Z)
  : VerificationConfig :=
  {| checks := cs;
     evaluation := {| mode := ALL_PASS; min_passed := None |};
     output := {| include_details := details |};
     poll_interval := interval;
     timeout := limit |}.

Definition test_world (docs : list string) : MockWorld :=
  {| mock_clock := 0;
     mock_latency := 0%nat;
     mock_responses := map (fun v => Ok (prometheus_response v)) docs |}.

(** The inputs of the worked examples. *)
Definition error_check : Check := error_count_check "error_count_check".

(** The result of [error_check] on a response of 50 errors. *)
Definition fifty_errors (now : Q) (n : Z) : CheckResult :=
  {| check_name := "error_count_check";
     success := false;
     result_value := VFloat 50%float;
     expected := VStr "< 10";
     message := "value 50.0 not < 10";
     timestamp := now;
     poll_number := n |}.

(** A bare result, for the aggregator. *)
Definition plain_result (check_name : string) (ok : bool) : CheckResult :=
  {| check_name := check_name;
     success := ok;
     result_value := VNone;
     expected := VNone;
     message := "";
     timestamp := 0;
     poll_number := 1 |}.

Definition threshold_config (k : Z) : VerificationConfig :=
  {| checks := [error_count_check "a"; error_count_check "b"; error_count_check "c"];
     evaluation := {| mode := THRESHOLD; min_passed := Some k |};
     output := {| include_details := true |};
     poll_interval := 1;
     timeout := 5 |}.

(** The world once its queue of responses is used up, at instant [now]. *)
Definition drained_world (now : Q) : MockWorld :=
  {| mock_clock := now; mock_latency := 0%nat; mock_responses := [] |}.

(** What a run reports when its time limit is zero. *)
Definition no_poll_result : VerificationResult :=
  {| status := TIMEOUT; checks_passed := 0; checks_failed := 0;
     total_polls := 0; duration := 0; detailed_results := [];
     failure_reason := Some "Timeout before any polls completed" |}.

(** What a run of two failing polls reports, with and without details. *)
Definition two_polls_result (details : list CheckResult) : VerificationResult :=
  {| status := FAILED; checks_passed := 0; checks_failed := 1;
     total_polls := 2; duration := 1; detailed_results := details;
     failure_reason := Some "Checks did not pass within timeout (1s)" |}.

(* ================================================================== *)
(** ** More vocabulary: what a run reports *)
(* ================================================================== *)

Section Reports.
Context {RT : Runtime} {W : Type} {WD : World W}.
Variable config : VerificationConfig.

(** The cumulative list after [p] polls none of which passed. *)
Inductive failed_upto : Z -> list CheckResult -> Prop :=
| failed_zero : failed_upto 0 []
| failed_next (p : Z) (rs block : list CheckResult) :
    0 <= p ->
    failed_upto p rs ->
    poll_block config (p + 1) block ->
    fst (_evaluate_overall config block) <> PASSED ->
    failed_upto (p + 1) (rs ++ block)%list.

(** The verdict of the evaluation mode, from the two counts of a poll. *)
Definition counts_pass (passed failed : Z) : bool :=
  match mode (evaluation config) with
  | ALL_PASS => failed =? 0
  | ANY_PASS => 0 <? passed
  | THRESHOLD =>
      match min_passed (evaluation config) with
      | Some k => (if k =? 0 then 1 else k) <=? passed
      | None => 1 <=? passed
      end
  end.

End Reports.

(* ================================================================== *)
(** ** The validators of the evaluation policy ([cv/models.py]) *)
(* ================================================================== *)

(** [EvaluationConfig.validate_threshold_mode]. *)
Definition validate_threshold_mode (e : EvaluationConfig) : Result EvaluationConfig :=
  match mode e with
  | THRESHOLD =>
      match min_passed e with
      | None => raise ValueError "min_passed is required when mode is THRESHOLD"
      | Some k =>
          if k <? 1 then raise ValueError "min_passed must be at least 1"
          else Ok e
      end
  | _ => Ok e
  end.

(** [VerificationConfig.validate_threshold_against_checks].  The test
    [and self.evaluation.min_passed] is the truthiness of an optional
    integer: present and not zero. *)
Definition validate_threshold_against_checks (c : VerificationConfig)
  : Result VerificationConfig :=
  match mode (evaluation c), min_passed (evaluation c) with
  | THRESHOLD, Some k =>
      if negb (k =? 0) && (len (checks c) <? k) then
        raise ValueError
          ("min_passed (" ++ int_str k ++ ") cannot exceed number of checks ("
             ++ int_str (len (checks c)) ++ ")")
      else Ok c
  | _, _ => Ok c
  end.

(** What the construction of a [VerificationConfig] checks of the fields
    modelled here: [checks] has [min_length=1], the nested
    [EvaluationConfig] passes its validator, and the model passes its
    own. *)
Definition VerificationConfig_accepted (c : VerificationConfig) : Prop :=
  checks c <> [] /\
  validate_threshold_mode (evaluation c) = Ok (evaluation c) /\
  validate_threshold_against_checks c = Ok c.

(* ================================================================== *)
(** ** Authentication settings ([cv/models.py]) *)
(* ================================================================== *)

(** [AuthMethod]. *)
Inductive AuthMethod : Type := BEARER | BASIC | API_KEY | HEADER | NONE.

(** [AuthMethod.value]. *)
Definition AuthMethod_value (m : AuthMethod) : string :=
  match m with
  | BEARER => "bearer"
  | BASIC => "basic"
  | API_KEY => "api-key"
  | HEADER => "header"
  | NONE => "none"
  end.

(** [AuthConfig]; [auth_method] is the field [method].  The secrets
    [token] and [password] are plain [str | None]. *)
Record AuthConfig : Type := mkAuthConfig {
  auth_method : AuthMethod;
  token : option string;
  username : option string;
  password : option string;
  header_name : option string
}.

(** The truthiness of a [str | None]: present and not empty. *)
Definition truthy (o : option string) : bool :=
  match o with
  | Some s => negb (s =? "")%string
  | None => false
  end.

(** The text of a [str | None] that is known to be set. *)
Definition opt_text (o : option string) : string :=
  match o with
  | Some s => s
  | None => ""
  end.

(** [AuthConfig.validate_auth_method]. *)
Definition validate_auth_method (a : AuthConfig) : Result AuthConfig :=
  match auth_method a with
  | BASIC =>
      if negb (truthy (username a)) || negb (truthy (password a)) then
        raise ValueError "Basic auth requires both username and password"
      else Ok a
  | BEARER | API_KEY | HEADER =>
      if negb (truthy (token a)) then
        raise ValueError (AuthMethod_value (auth_method a) ++ " auth requires token")
      else if match auth_method a with API_KEY | HEADER => true | _ => false end
              && negb (truthy (header_name a)) then
        raise ValueError (AuthMethod_value (auth_method a) ++ " auth requires header_name")
      else Ok a
  | NONE => Ok a
  end.

(** A Python [dict] keyed by strings, in insertion order: [d.get(k)] and
    [d[k] = v]. *)
Fixpoint dict_get {A : Type} (d : list (string * A)) (k : string) : option A :=
  match d with
  | [] => None
  | (k', v) :: rest => if (k' =? k)%string then Some v else dict_get rest k
  end.

Fixpoint dict_set {A : Type} (d : list (string * A)) (k : string) (v : A)
  : list (string * A) :=
  match d with
  | [] => [(k, v)]
  | (k', v') :: rest =>
      if (k' =? k)%string then (k, v) :: rest else (k', v') :: dict_set rest k v
  end.

(** [d.update(other)]. *)
Definition dict_update {A : Type} (d other : list (string * A)) : list (string * A) :=
  fold_left (fun acc kv => dict_set acc (fst kv) (snd kv)) other d.

Definition py_opt_str (o : option string) : PyVal :=
  match o with
  | Some s => VStr s
  | None => VNone
  end.

(** [d.get(k)] on a dict of values, [None] for a missing key. *)
Definition py_get (d : list (string * PyVal)) (k : string) : PyVal :=
  match dict_get d k with
  | Some v => v
  | None => VNone
  end.

Definition REDACTED : string := "***REDACTED***".

(** [AuthConfig.model_dump] called without arguments: the dump of the
    five fields, with the two secrets overwritten when they are set. *)
Definition model_dump (a : AuthConfig) : list (string * PyVal) :=
  let data :=
    [("method", VStr (AuthMethod_value (auth_method a)));
     ("token", py_opt_str (token a));
     ("username", py_opt_str (username a));
     ("password", py_opt_str (password a));
     ("header_name", py_opt_str (header_name a))] in
  let data :=
    if py_bool (py_get data "token") then dict_set data "token" (VStr REDACTED)
    else data in
  let data :=
    if py_bool (py_get data "password") then dict_set data "password" (VStr REDACTED)
    else data in
  data.

(* ================================================================== *)
(** ** The HTTP client ([cv/http_client.py]) *)
(* ================================================================== *)

(** [s.lstrip("/")] and [s.rstrip("/")]. *)
Fixpoint lstrip_slash (s : string) : string :=
  match s with
  | String "/" rest => lstrip_slash rest
  | _ => s
  end.

Fixpoint rstrip_slash (s : string) : string :=
  match s with
  | EmptyString => EmptyString
  | String c rest =>
      match rstrip_slash rest with
      | EmptyString => if (c =? "/")%char then EmptyString else String c EmptyString
      | rest' => String c rest'
      end
  end.

(** The [verify] argument given to [httpx.Client]: the path of a CA
    bundle, or a flag. *)
Inductive Verify : Type :=
| VerifyBundle (ca_bundle : string)
| VerifyFlag (on : bool).

(** What [httpx] answers: [status_error] is what [raise_for_status()]
    raises, if anything; [response_json] is what [json()] returns,
    [None] when it raises [JSONDecodeError]; [response_text] is [text]. *)
Record Response : Type := mkResponse {
  status_error : option Exc;
  response_text : string;
  response_json : option PyVal
}.

(** The arguments of [self.client.request(method, url, **kwargs)]. *)
Record HttpxCall : Type := mkHttpxCall {
  call_method : string;
  call_url : string;
  call_headers : list (string * string);
  call_params : list (string * PyVal);
  call_timeout : Z;
  call_auth : option (option string * string);
  call_json : option PyVal;
  call_data : option PyVal
}.

(** The machine the program runs on: clock, sleep, file system, process
    environment, and the [httpx] client (created with a [verify]
    setting). *)
Class Host (H : Type) : Type := {
  host_time : H -> Q * H;
  host_sleep : Z -> M H unit;
  host_now : H -> Q * H;
  path_exists : string -> H -> bool * H;
  httpx_request : Verify -> HttpxCall -> M H Response;
  httpx_close : M H unit;
  read_file : string -> M H string;
  read_stdin : M H string;
  getenv : string -> H -> option string * H;
  mkdir : string -> M H unit;
  write_text : string -> string -> string -> M H unit
}.

(** [HTTPClient]: its [base_url], [auth], and the [verify] setting of
    its [httpx.Client]. *)
Record HTTPClient : Type := mkHTTPClient {
  base_url : string;
  client_auth : AuthConfig;
  client_verify : Verify
}.

(** [s.get_secret_value()] on a plain [str]: the attribute does not
    exist, Python raises [AttributeError] (here under [LibraryError],
    the class of the exceptions that are neither of the other three). *)
Definition get_secret_value (s : option string) : Result string :=
  raise LibraryError "'str' object has no attribute 'get_secret_value'".

Section Client.
Context {H : Type} {HD : Host H}.
Open Scope monad_scope.

(** [HTTPClient.__init__]. *)
Definition HTTPClient_init (url : string) (a : AuthConfig) (verify_ssl : bool)
    (ca_bundle : option string) : M H HTTPClient :=
  v <-
    (if truthy ca_bundle then
       found <- reading (path_exists (opt_text ca_bundle)) ;;
       if (found : bool) then ret (VerifyBundle (opt_text ca_bundle))
       else lift (raise ValueError
                    ("CA bundle file not found: " ++ opt_text ca_bundle))
     else ret (VerifyFlag verify_ssl)) ;;
  ret {| base_url := rstrip_slash url; client_auth := a; client_verify := v |}.

(** [HTTPClient._build_auth_headers]. *)
Definition _build_auth_headers (c : HTTPClient) : Result (list (string * string)) :=
  let a := client_auth c in
  match auth_method a with
  | BEARER =>
      if truthy (token a) then
        rbind (get_secret_value (token a))
          (fun s => Ok [("Authorization", "Bearer " ++ s)])
      else Ok []
  | API_KEY | HEADER =>
      if truthy (header_name a) && truthy (token a) then
        rbind (get_secret_value (token a))
          (fun s => Ok [(opt_text (header_name a), s)])
      else Ok []
  | _ => Ok []
  end.

(** The URL of a request: [f"{self.base_url}/{query.endpoint.lstrip('/')}"]. *)
Definition request_url (c : HTTPClient) (q : QueryConfig) : string :=
  base_url c ++ "/" ++ lstrip_slash (endpoint q).

(** The arguments [HTTPClient.request] gives to [self.client.request],
    from the merged headers and the basic credentials. *)
Definition request_call (c : HTTPClient) (q : QueryConfig)
    (hs : list (string * string)) (basic : option (option string * string))
  : HttpxCall :=
  {| call_method := method q;
     call_url := request_url c q;
     call_headers := hs;
     call_params := params q;
     call_timeout := query_timeout q;
     call_auth := basic;
     call_json :=
       if py_bool (body q)
       then match body q with VDict _ => Some (body q) | _ => None end
       else None;
     call_data :=
       if py_bool (body q)
       then match body q with VDict _ => None | _ => Some (body q) end
       else None |}.

(** The credentials of basic authentication, in [HTTPClient.request]. *)
Definition basic_credentials (c : HTTPClient)
  : Result (option (option string * string)) :=
  match auth_method (client_auth c) with
  | BASIC =>
      if truthy (password (client_auth c)) then
        rbind (get_secret_value (password (client_auth c)))
          (fun p => Ok (Some (username (client_auth c), p)))
      else raise ValueError "Basic auth requires password"
  | _ => Ok None
  end.

(** The end of [HTTPClient.request]: [raise_for_status()], then the
    decoding of the body. *)
Definition decode_response (response : Response) : Result PyVal :=
  match status_error response with
  | Some e => Raise e
  | None =>
      match response_json response with
      | Some v => Ok v
      | None =>
          raise ValueError
            ("Expected JSON response but got: "
               ++ substring 0 200 (response_text response))
      end
  end.

(** [HTTPClient.request]. *)
Definition HTTPClient_request (c : HTTPClient) (q : QueryConfig) : M H PyVal :=
  hs <- lift (_build_auth_headers c) ;;
  let hs := dict_update hs (headers q) in
  basic <- lift (basic_credentials c) ;;
  response <- httpx_request (client_verify c) (request_call c q hs basic) ;;
  lift (decode_response response).

(** [HTTPClient.close]. *)
Definition HTTPClient_close (c : HTTPClient) : M H unit := httpx_close.

(** The world of a verifier that owns the client [c]. *)
Definition client_world (c : HTTPClient) : World H :=
  {| time_time := host_time;
     time_sleep := host_sleep;
     datetime_now := host_now;
     http_request := HTTPClient_request c |}.

End Client.

(* ================================================================== *)
(** ** The command line ([cv/main.py]) *)
(* ================================================================== *)

(** The whole [VerificationConfig]: the fields the engine reads
    ([config_core]) and those it hands to the HTTP client. *)
Record FullConfig : Type := mkFullConfig {
  config_core : VerificationConfig;
  api_endpoint : string;
  config_auth : AuthConfig;
  verify_ssl : bool;
  ca_bundle : option string
}.

(** The libraries of the command line:
    - [yaml_safe_load s] is [yaml.safe_load(s)], [inr msg] when it raises
      a [yaml.YAMLError] whose text is [msg];
    - [parse_config d] is the construction of a [VerificationConfig]
      from the keys of [d], the parsing and validation of the schema;
    - [json_dumps v] is [json.dumps(v, indent=2)];
    - [isoformat t] is [t.isoformat()] of a timestamp. *)
Class Codec : Type := {
  yaml_safe_load : string -> PyVal + string;
  parse_config : PyVal -> Result FullConfig;
  json_dumps : PyVal -> string;
  isoformat : Q -> string
}.

(** The exit codes. *)
Definition EXIT_SUCCESS : Z := 0.
Definition EXIT_FAILED : Z := 1.
Definition EXIT_TIMEOUT : Z := 2.
Definition EXIT_ERROR : Z := 3.

(** [VerificationStatus.value]. *)
Definition status_value (s : VerificationStatus) : string :=
  match s with
  | PASSED => "PASSED"
  | FAILED => "FAILED"
  | TIMEOUT => "TIMEOUT"
  end.

(** [try: body finally: cleanup]. *)
Definition finally {H A : Type} (body : M H A) (cleanup : M H unit) : M H A :=
  fun h =>
    match body h with
    | (r, h1) =>
        match cleanup h1 with
        | (Ok _, h2) => (r, h2)
        | (Raise e, h2) => (Raise e, h2)
        end
    end.

Section CommandLine.
Context {RT : Runtime} {CD : Codec} {H : Type} {HD : Host H}.
Open Scope monad_scope.

(** The three [try: yaml.safe_load(content) except yaml.YAMLError]
    blocks of [load_config], with the text that introduces the error. *)
Definition parse_yaml (content : string) (intro : string) : M H PyVal :=
  match yaml_safe_load content with
  | inl data => ret data
  | inr msg => lift (raise ValueError (intro ++ msg))
  end.

(** [load_config]. *)
Definition load_config (config_file : option string) (config_stdin : bool)
    (config_env : option string) : M H FullConfig :=
  config_data <-
    (if truthy config_file then
       content <- read_file (opt_text config_file) ;;
       parse_yaml content
         ("Failed to parse configuration file '" ++ opt_text config_file ++ "': ")
     else if config_stdin then
       content <- read_stdin ;;
       parse_yaml content "Failed to parse configuration from stdin: "
     else if truthy config_env then
       content <- reading (getenv (opt_text config_env)) ;;
       if truthy content then
         parse_yaml (opt_text content)
           ("Failed to parse configuration from environment variable '"
              ++ opt_text config_env ++ "': ")
       else
         lift (raise ValueError
                 ("Environment variable '" ++ opt_text config_env
                    ++ "' not found or empty"))
     else
       lift (raise ValueError
               "Must specify one of: --config-file, --config-stdin, or --config-env")) ;;
  match parse_config config_data with
  | Ok c => ret c
  | Raise e => lift (raise ValueError ("Configuration validation failed: " ++ exc_str e))
  end.

(** The entry of [detailed["results"]] for one check result. *)
Definition result_entry (r : CheckResult) : PyVal :=
  VDict [("check_name", VStr (check_name r));
         ("success", VBool (success r));
         ("value", result_value r);
         ("expected", expected r);
         ("message", VStr (message r));
         ("timestamp", VStr (isoformat (timestamp r)));
         ("poll_number", VInt (poll_number r))].

(** The dict [detailed] of [write_outputs]. *)
Definition detailed_report (result : VerificationResult) : PyVal :=
  VDict [("status", VStr (status_value (status result)));
         ("checks_passed", VInt (checks_passed result));
         ("checks_failed", VInt (checks_failed result));
         ("total_polls", VInt (total_polls result));
         ("duration", VInt (duration result));
         ("failure_reason", py_opt_str (failure_reason result));
         ("results", VList (map result_entry (detailed_results result)))].

(** [write_outputs]. *)
Definition write_outputs (result : VerificationResult) (output_dir : string)
  : M H unit :=
  _ <- mkdir output_dir ;;
  _ <- write_text output_dir "verification-status" (status_value (status result)) ;;
  _ <- write_text output_dir "checks-passed" (int_str (checks_passed result)) ;;
  _ <- write_text output_dir "checks-failed" (int_str (checks_failed result)) ;;
  _ <- write_text output_dir "duration" (int_str (duration result)) ;;
  _ <- write_text output_dir "poll-count" (int_str (total_polls result)) ;;
  write_text output_dir "detailed-results" (json_dumps (detailed_report result)).

(** The truthiness of an [int | None] option of the command line. *)
Definition given (o : option Z) : bool :=
  match o with
  | Some z => negb (z =? 0)
  | None => false
  end.

Definition opt_int (o : option Z) : Z :=
  match o with
  | Some z => z
  | None => 0
  end.

(** The overrides [--poll-interval] and [--timeout]. *)
Definition apply_overrides (c : FullConfig) (interval limit : option Z) : FullConfig :=
  let core := config_core c in
  let core :=
    if given interval then
      {| checks := checks core; evaluation := evaluation core;
         output := output core;
         poll_interval := opt_int interval; timeout := timeout core |}
    else core in
  let core :=
    if given limit then
      {| checks := checks core; evaluation := evaluation core;
         output := output core;
         poll_interval := poll_interval core; timeout := opt_int limit |}
    else core in
  {| config_core := core; api_endpoint := api_endpoint c;
     config_auth := config_auth c; verify_ssl := verify_ssl c;
     ca_bundle := ca_bundle c |}.

(** The exit code of a status. *)
Definition exit_code (s : VerificationStatus) : Z :=
  match s with
  | PASSED => EXIT_SUCCESS
  | FAILED => EXIT_FAILED
  | TIMEOUT => EXIT_TIMEOUT
  end.

(** [Verifier.__init__]: the verifier owns a new HTTP client. *)
Definition Verifier_init (c : FullConfig) : M H HTTPClient :=
  HTTPClient_init (api_endpoint c) (config_auth c) (verify_ssl c) (ca_bundle c).

(** The body of the [try] of [verify], up to the [match] on the status:
    the result of the run, [None] when the fuel of the run is used up. *)
Definition verification (config_file : option string) (config_stdin : bool)
    (config_env : option string) (output_dir : option string)
    (interval limit : option Z) (fuel : nat) : M H (option VerificationResult) :=
  config <- load_config config_file config_stdin config_env ;;
  let config := apply_overrides config interval limit in
  verifier <- Verifier_init config ;;
  result <-
    finally (run (WD := client_world verifier) (config_core config) fuel)
      (HTTPClient_close verifier) ;;
  match result with
  | None => ret None
  | Some r =>
      _ <- (if truthy output_dir then write_outputs r (opt_text output_dir)
            else ret tt) ;;
      ret (Some r)
  end.

(** [verify]: the code the process exits with.  [sys.exit] raises
    [SystemExit], which [except Exception] does not catch. *)
Definition verify (config_file : option string) (config_stdin : bool)
    (config_env : option string) (output_dir : option string)
    (interval limit : option Z) (fuel : nat) : H -> option Z * H :=
  fun h =>
    match verification config_file config_stdin config_env output_dir
            interval limit fuel h with
    | (Ok (Some r), h') => (Some (exit_code (status r)), h')
    | (Ok None, h') => (None, h')
    | (Raise e, h') => (Some EXIT_ERROR, h')
    end.

End CommandLine.

(* ================================================================== *)
(** ** A mock host and a stand-in codec *)
(* ================================================================== *)

(** A machine for the examples: a clock that moves when the program
    sleeps, a file system, an environment, a queue of HTTP responses,
    and the record of the files written. *)
Record MockHost : Type := mkMockHost {
  mh_clock : Q;
  mh_files : list (string * string);
  mh_stdin : string;
  mh_env : list (string * string);
  mh_responses : list (Result Response);
  mh_written : list (string * string * string)
}.

Definition mh_time (h : MockHost) : Q * MockHost := (mh_clock h, h).

Definition mh_sleep (d : Z) : M MockHost unit :=
  fun h =>
    if d <? 0 then (raise ValueError "sleep length must be non-negative", h)
    else
      (Ok tt,
       {| mh_clock := Qred (mh_clock h + inject_Z d);
          mh_files := mh_files h; mh_stdin := mh_stdin h; mh_env := mh_env h;
          mh_responses := mh_responses h; mh_written := mh_written h |}).

Definition mh_exists (p : string) (h : MockHost) : bool * MockHost :=
  (match dict_get (mh_files h) p with Some _ => true | None => false end, h).

Definition mh_request (v : Verify) (call : HttpxCall) : M MockHost Response :=
  fun h =>
    match mh_responses h with
    | [] => (raise LibraryError "No response can be found", h)
    | r :: rest =>
        (r,
         {| mh_clock := mh_clock h;
            mh_files := mh_files h; mh_stdin := mh_stdin h; mh_env := mh_env h;
            mh_responses := rest; mh_written := mh_written h |})
    end.

Definition mh_read (p : string) : M MockHost string :=
  fun h =>
    match dict_get (mh_files h) p with
    | Some content => (Ok content, h)
    | None => (raise LibraryError ("No such file or directory: '" ++ p ++ "'"), h)
    end.

Definition mh_write (dir file content : string) : M MockHost unit :=
  fun h =>
    (Ok tt,
     {| mh_clock := mh_clock h;
        mh_files := mh_files h; mh_stdin := mh_stdin h; mh_env := mh_env h;
        mh_responses := mh_responses h;
        mh_written := (mh_written h ++ [(dir, file, content)])%list |}).

#[global] Instance mock_host : Host MockHost := {|
  host_time := mh_time;
  host_sleep := mh_sleep;
  host_now := mh_time;
  path_exists := mh_exists;
  httpx_request := mh_request;
  httpx_close := ret tt;
  read_file := mh_read;
  read_stdin := fun h => (Ok (mh_stdin h), h);
  getenv := fun var h => (dict_get (mh_env h) var, h);
  mkdir := fun _ => ret tt;
  write_text := mh_write
|}.

(** A configuration of one check against [http://prometheus:9090],
    without authentication. *)
Definition demo_config : FullConfig :=
  {| config_core := test_config [error_check] true 1 5;
     api_endpoint := "http://prometheus:9090/";
     config_auth := {| auth_method := NONE; token := None; username := None;
                       password := None; header_name := None |};
     verify_ssl := true;
     ca_bundle := None |}.

(** A stand-in for the YAML and schema libraries: the text
    ["demo"] is the configuration [demo_config], a text that starts
    with [":"] is malformed YAML, any other text fails validation. *)
#[global] Instance demo_codec : Codec := {|
  yaml_safe_load := fun s =>
    match s with
    | String ":" _ => inr "mapping values are not allowed here"
    | _ => inl (VStr s)
    end;
  parse_config := fun d =>
    match d with
    | VStr "demo" => Ok demo_config
    | _ => raise ValueError "1 validation error for VerificationConfig"
    end;
  json_dumps := fun v => py_repr v;
  isoformat := fun t => int_str (py_int t)
|}.

(** A host with the configuration in a file and a queue of Prometheus
    answers. *)
Definition demo_host (docs : list string) : MockHost :=
  {| mh_clock := 0;
     mh_files := [("cv.yaml", "demo")];
     mh_stdin := "";
     mh_env := [];
     mh_responses :=
       map (fun v => Ok {| status_error := None;
                           response_text := "";
                           response_json := Some (prometheus_response v) |}) docs;
     mh_written := [] |}.

(** The client the verifier builds from [demo_config]. *)
Definition demo_client : HTTPClient :=
  {| base_url := "http://prometheus:9090";
     client_auth := config_auth demo_config;
     client_verify := VerifyFlag true |}.

(** A client with a bearer token. *)
Definition bearer_client : HTTPClient :=
  {| base_url := "http://api:8080";
     client_auth := {| auth_method := BEARER; token := Some "test-token";
                       username := None; password := None; header_name := None |};
     client_verify := VerifyFlag true |}.

(* ================================================================== *)
(** ** Counting successes in a poll *)
(* ================================================================== *)

Section Counting.
Context {A : Type} (f : A -> bool).

Lemma filter_length_bound (l : list A) :
  (List.length (filter f l) <= List.length l)%nat.
Proof.
  induction l as [|x l IH]; simpl; [lia|].
  destruct (f x); simpl; lia.
Qed.

Lemma filter_length_all (l : list A) :
  List.length (filter f l) = List.length l <-> Forall (fun x => f x = true) l.
Proof.
  induction l as [|x l IH]; simpl.
  - split; [constructor | reflexivity].
  - pose proof (filter_length_bound l) as Hb.
    destruct (f x) eqn:Hx; simpl; split; intros H.
    + constructor; [assumption | apply IH; lia].
    + inversion H; subst. f_equal. now apply IH.
    + lia.
    + inversion H; subst. congruence.
Qed.

Lemma filter_length_some (l : list A) :
  (0 < List.length (filter f l))%nat <-> Exists (fun x => f x = true) l.
Proof.
  induction l as [|x l IH]; simpl.
  - split; [lia | intros H; inversion H].
  - destruct (f x) eqn:Hx; simpl; split; intros H.
    + now left.
    + lia.
    + right. now apply IH.
    + inversion H; subst; [congruence | now apply IH].
Qed.

Lemma len_filter_all (l : list A) :
  len (filter f l) = len l <-> Forall (fun x => f x = true) l.
Proof.
  unfold len. rewrite <- filter_length_all. lia.
Qed.

Lemma len_filter_some (l : list A) :
  0 < len (filter f l) <-> Exists (fun x => f x = true) l.
Proof.
  unfold len. rewrite <- filter_length_some. lia.
Qed.

Lemma len_nonneg (l : list A) : 0 <= len l.
Proof. unfold len. lia. Qed.

End Counting.

(* ================================================================== *)
(** ** The poll aggregator *)
(* ================================================================== *)

Section Aggregator.
Variable config : VerificationConfig.

Lemma evaluate_overall_all_pass (rs : list CheckResult) :
  mode (evaluation config) = ALL_PASS ->
  fst (_evaluate_overall config rs) = PASSED <->
  Forall (fun r => success r = true) rs.
Proof.
  intros Hm. unfold _evaluate_overall. rewrite Hm.
  rewrite <- len_filter_all.
  destruct (Z.eqb_spec (len (filter success rs)) (len rs)) as [E|E]; simpl.
  - tauto.
  - split; [discriminate | contradiction].
Qed.

Lemma evaluate_overall_any_pass (rs : list CheckResult) :
  mode (evaluation config) = ANY_PASS ->
  fst (_evaluate_overall config rs) = PASSED <->
  Exists (fun r => success r = true) rs.
Proof.
  intros Hm. unfold _evaluate_overall. rewrite Hm.
  rewrite <- len_filter_some.
  destruct (Z.ltb_spec 0 (len (filter success rs))) as [E|E]; simpl.
  - tauto.
  - split; [discriminate | lia].
Qed.

Lemma evaluate_overall_threshold (rs : list CheckResult) (k : Z) :
  mode (evaluation config) = THRESHOLD ->
  min_passed (evaluation config) = Some k ->
  k <> 0 ->
  fst (_evaluate_overall config rs) = PASSED <-> k <= successes rs.
Proof.
  intros Hm Hk Hk0. unfold _evaluate_overall, successes. rewrite Hm, Hk.
  destruct (Z.eqb_spec k 0) as [E|E]; [contradiction|].
  destruct (Z.leb_spec k (len (filter success rs))) as [L|L]; simpl.
  - tauto.
  - split; [discriminate | lia].
Qed.

Lemma evaluate_overall_two_valued (rs : list CheckResult) :
  fst (_evaluate_overall config rs) = PASSED \/
  fst (_evaluate_overall config rs) = FAILED.
Proof.
  unfold _evaluate_overall.
  destruct (mode (evaluation config));
    repeat match goal with |- context [if ?b then _ else _] => destruct b end;
    simpl; auto.
Qed.

Lemma evaluate_overall_not_timeout (rs : list CheckResult) :
  fst (_evaluate_overall config rs) <> TIMEOUT.
Proof.
  destruct (evaluate_overall_two_valued rs) as [H|H]; rewrite H; discriminate.
Qed.

(** C2.  On a non-empty poll the aggregator answers [PASSED] exactly
    when: every result succeeded (mode ALL_PASS); at least one result
    succeeded (mode ANY_PASS); the number of successes reaches
    [min_passed = k], for [1 <= k <= number of checks] (mode THRESHOLD).
    Whenever the answer is not [PASSED] it is [FAILED]. *)
Theorem evaluate_overall_by_mode (poll_results : list CheckResult) :
  poll_results <> [] ->
  (mode (evaluation config) = ALL_PASS ->
   (fst (_evaluate_overall config poll_results) = PASSED <->
    Forall (fun r => success r = true) poll_results)) /\
  (mode (evaluation config) = ANY_PASS ->
   (fst (_evaluate_overall config poll_results) = PASSED <->
    Exists (fun r => success r = true) poll_results)) /\
  (forall k,
     mode (evaluation config) = THRESHOLD ->
     min_passed (evaluation config) = Some k ->
     1 <= k <= len (checks config) ->
     (fst (_evaluate_overall config poll_results) = PASSED <->
      k <= successes poll_results)) /\
  (fst (_evaluate_overall config poll_results) <> PASSED ->
   fst (_evaluate_overall config poll_results) = FAILED).
Proof.
  intros _. repeat split.
  - now apply evaluate_overall_all_pass.
  - now apply evaluate_overall_all_pass.
  - now apply evaluate_overall_any_pass.
  - now apply evaluate_overall_any_pass.
  - apply evaluate_overall_threshold; auto; lia.
  - apply evaluate_overall_threshold; auto; lia.
  - intros Hn. destruct (evaluate_overall_two_valued poll_results); tauto.
Qed.

(** C10.  On the empty list the aggregator answers [PASSED] in mode
    ALL_PASS, and [FAILED] in modes ANY_PASS and THRESHOLD (for an
    evaluation policy that passed its validator). *)
Theorem evaluate_overall_empty :
  EvaluationConfig_valid (evaluation config) ->
  (mode (evaluation config) = ALL_PASS ->
   fst (_evaluate_overall config []) = PASSED) /\
  (mode (evaluation config) = ANY_PASS ->
   fst (_evaluate_overall config []) = FAILED) /\
  (mode (evaluation config) = THRESHOLD ->
   fst (_evaluate_overall config []) = FAILED).
Proof.
  intros Hv. unfold _evaluate_overall. repeat split; intros Hm; rewrite Hm; simpl.
  - reflexivity.
  - reflexivity.
  - destruct (Hv Hm) as (k & Hk & Hk1). rewrite Hk.
    destruct (Z.eqb_spec k 0) as [E|E]; [lia|].
    unfold len; simpl. destruct (Z.leb_spec k 0); [lia | reflexivity].
Qed.

End Aggregator.

(* ================================================================== *)
(** ** Strings *)
(* ================================================================== *)

Lemma append_assoc (a b c : string) : (a ++ b) ++ c = a ++ b ++ c.
Proof. induction a as [|x a IH]; simpl; [reflexivity | now rewrite IH]. Qed.

Lemma append_nil_r (a : string) : a ++ "" = a.
Proof. induction a as [|x a IH]; simpl; [reflexivity | now rewrite IH]. Qed.

Lemma includes_here (pre sub post : string) : includes sub (pre ++ sub ++ post).
Proof. now exists pre, post. Qed.

Lemma includes_suffix (pre sub : string) : includes sub (pre ++ sub).
Proof. exists pre, "". now rewrite append_nil_r. Qed.

Lemma includes_append_l (pre sub s : string) : includes sub s -> includes sub (pre ++ s).
Proof.
  intros (a & b & ->). exists (pre ++ a), b. now rewrite append_assoc.
Qed.

Lemma substring_prefix (n : nat) (s : string) :
  exists post, s = substring 0 n s ++ post.
Proof.
  revert s. induction n as [|n IH]; intros s.
  - exists s. now destruct s.
  - destruct s as [|c s]; [now exists ""|].
    destruct (IH s) as (post & E). exists post. simpl. now rewrite <- E.
Qed.

Lemma includes_prefix (n : nat) (sub s : string) :
  includes sub s -> includes (substring 0 n sub) s.
Proof.
  intros (pre & post & ->). destruct (substring_prefix n sub) as (rest & E).
  exists pre, (rest ++ post). f_equal. rewrite <- append_assoc. f_equal. exact E.
Qed.

Lemma lower_empty (s : string) : lower s = "" <-> s = "".
Proof. destruct s; simpl; split; intros H; congruence. Qed.

(* ================================================================== *)
(** ** The type coercer *)
(* ================================================================== *)

Section Coercer.
Context {RT : Runtime}.

Lemma convert_boolean_string (s : string) (d : PyVal) :
  _convert_type (VStr s) "boolean" d
  = Ok (VBool (negb (str_in (lower s) ["false"; "0"; ""]))).
Proof. reflexivity. Qed.

Lemma str_in_spec (s : string) (l : list string) : str_in s l = true <-> In s l.
Proof.
  unfold str_in. rewrite existsb_exists. split.
  - intros (x & Hx & E). apply String.eqb_eq in E. now subst.
  - intros H. exists s. split; [assumption | apply String.eqb_refl].
Qed.

(** C8, as the code has it.  Coercion to [boolean] returns a boolean
    unchanged; sends a string to [False] exactly when its lower-cased
    form is ["false"], ["0"] or the string is empty, and to [True]
    otherwise; and sends any other value to its truthiness. *)
Theorem convert_boolean (v d : PyVal) :
  (forall b, v = VBool b -> _convert_type v "boolean" d = Ok (VBool b)) /\
  (forall s, v = VStr s ->
     exists b, _convert_type v "boolean" d = Ok (VBool b) /\
       (b = false <-> lower s = "false" \/ lower s = "0" \/ s = "")) /\
  ((forall b, v <> VBool b) -> (forall s, v <> VStr s) ->
     _convert_type v "boolean" d = Ok (VBool (py_bool v))).
Proof.
  split; [|split].
  - intros b ->. reflexivity.
  - intros s ->. eexists. split; [apply convert_boolean_string|].
    rewrite negb_false_iff, str_in_spec. simpl. rewrite <- (lower_empty s).
    intuition congruence.
  - intros Hb Hs. destruct v as [|b|z|f|s|l|kvs]; try reflexivity.
    now destruct (Hs s).
Qed.

Lemma float_of_int_overflow : float_of_int (10 ^ 400) = None.
Proof. vm_compute. reflexivity. Qed.

(** C7, at the input where the code departs from it.  The integer
    [10^400] does not fit a float: [float(value)] raises [OverflowError],
    which the clause [except (ValueError, TypeError)] does not handle, so
    the coercer raises whatever default is configured. *)
Theorem convert_number_overflow (d : PyVal) :
  _convert_type (VInt (10 ^ 400)) "number" d
  = Raise (mkExc OverflowError "int too large to convert to float").
Proof.
  unfold _convert_type, convert_body, py_float.
  rewrite float_of_int_overflow. reflexivity.
Qed.

(** The exceptions of the conversion proper: [ValueError], [TypeError],
    and [OverflowError] for an integer under target type [number]. *)
Lemma convert_body_raises (v : PyVal) (t : string) (e : Exc) :
  convert_body v t = Raise e ->
  exc_class e = ValueError \/ exc_class e = TypeError \/
  (exc_class e = OverflowError /\ t = "number" /\ exists z, v = VInt z).
Proof.
  unfold convert_body.
  destruct (String.eqb_spec t "number") as [->|_].
  - unfold py_float. destruct v; simpl;
      repeat match goal with
        | |- context [match ?x with _ => _ end] => destruct x; simpl
        end;
      intros H; inversion H; subst; simpl; eauto 6.
  - destruct (t =? "string")%string; [discriminate|].
    destruct (t =? "boolean")%string; [destruct v; discriminate|].
    destruct (t =? "json")%string; [discriminate|].
    intros H; inversion H; subst; simpl; auto.
Qed.

(** With a default configured, a conversion that raises [ValueError] or
    [TypeError] returns the default. *)
Lemma convert_type_default (v : PyVal) (t : string) (d : PyVal) (e : Exc) :
  convert_body v t = Raise e ->
  exc_class e = ValueError \/ exc_class e = TypeError ->
  d <> VNone ->
  _convert_type v t d = Ok d.
Proof.
  intros Hb Hc Hd. unfold _convert_type. rewrite Hb.
  destruct Hc as [-> | ->]; destruct d; congruence.
Qed.

(** Without a default, a conversion that raises does raise. *)
Lemma convert_type_no_default (v : PyVal) (t : string) (e : Exc) :
  convert_body v t = Raise e ->
  exists e', _convert_type v t VNone = Raise e'.
Proof.
  intros Hb. unfold _convert_type. rewrite Hb.
  destruct (exc_class e); eexists; reflexivity.
Qed.

End Coercer.

(* ================================================================== *)
(** ** The threshold evaluator *)
(* ================================================================== *)

Section Evaluator.
Context {RT : Runtime}.

Lemma evaluate_check_dispatch (o : CmpOp) (e : ThresholdValue) (v : PyVal) :
  _evaluate_check {| operator := op_symbol o; value := e |} v
  = match py_compare o v e with
    | Ok true =>
        Ok (true,
            "value " ++ py_str v ++ " " ++ op_symbol o ++ " " ++ py_str (threshold_to_py e))
    | Ok false =>
        Ok (false,
            "value " ++ py_str v ++ " not " ++ op_symbol o ++ " "
              ++ py_str (threshold_to_py e))
    | Raise x => Raise x
    end.
Proof.
  unfold _evaluate_check. destruct o; simpl;
    destruct (py_compare _ v e) as [[|]|x]; reflexivity.
Qed.

Lemma py_compare_comparable (o : CmpOp) (v : PyVal) (e : ThresholdValue) :
  comparable o v e = true -> exists b, py_compare o v e = Ok b.
Proof.
  unfold comparable, py_compare.
  destruct o, v, e; simpl; intros H; try discriminate; eexists; reflexivity.
Qed.

Lemma py_compare_incomparable (o : CmpOp) (v : PyVal) (e : ThresholdValue) :
  comparable o v e = false ->
  exists msg, py_compare o v e = Raise (mkExc TypeError msg).
Proof.
  unfold comparable, py_compare.
  destruct o, v, e; simpl; intros H; try discriminate; eexists; reflexivity.
Qed.

(** C9, as the code has it.  For each of the six operators: when the
    operands are comparable (an equality test, or an ordering test
    between two numbers or between two strings) the evaluator returns
    the pair of the operator's answer and the message
    ["value {v} {op} {expected}"] on success,
    ["value {v} not {op} {expected}"] on failure; numbers compare by
    value and strings by code points.  An ordering test on other
    operands raises [TypeError]. *)
Theorem evaluate_check_verdict (o : CmpOp) (v : PyVal) (e : ThresholdValue) :
  (comparable o v e = true ->
   exists b, py_compare o v e = Ok b /\
     _evaluate_check {| operator := op_symbol o; value := e |} v
     = Ok (b,
           if b
           then "value " ++ py_str v ++ " " ++ op_symbol o ++ " "
                  ++ py_str (threshold_to_py e)
           else "value " ++ py_str v ++ " not " ++ op_symbol o ++ " "
                  ++ py_str (threshold_to_py e))) /\
  (forall a n, as_num v = Some a -> as_num (threshold_to_py e) = Some n ->
     py_compare o v e = Ok (op_holds o (num_compare a n))) /\
  (forall s t, v = VStr s -> e = TStr t ->
     py_compare o v e = Ok (op_holds o (Some (String.compare s t)))) /\
  (comparable o v e = false ->
   exists msg,
     _evaluate_check {| operator := op_symbol o; value := e |} v
     = Raise (mkExc TypeError msg)).
Proof.
  split; [|split; [|split]].
  - intros Hc. destruct (py_compare_comparable o v e Hc) as [b Hb].
    exists b. split; [assumption|].
    rewrite evaluate_check_dispatch, Hb. now destruct b.
  - intros a n Ha Hn. unfold py_compare. now rewrite Ha, Hn.
  - intros s t -> ->. reflexivity.
  - intros Hc. destruct (py_compare_incomparable o v e Hc) as [msg Hm].
    exists msg. now rewrite evaluate_check_dispatch, Hm.
Qed.

(** An operator outside the six is rejected when the check is evaluated. *)
Lemma evaluate_check_unknown_operator (op : string) (e : ThresholdValue) (v : PyVal) :
  (forall o, op <> op_symbol o) ->
  _evaluate_check {| operator := op; value := e |} v
  = Raise (mkExc ValueError ("Unknown operator: " ++ op)).
Proof.
  intros H. unfold _evaluate_check. simpl.
  destruct (String.eqb_spec op "<") as [E|_]; [now destruct (H OpLt)|].
  destruct (String.eqb_spec op ">") as [E|_]; [now destruct (H OpGt)|].
  destruct (String.eqb_spec op "<=") as [E|_]; [now destruct (H OpLe)|].
  destruct (String.eqb_spec op ">=") as [E|_]; [now destruct (H OpGe)|].
  destruct (String.eqb_spec op "==") as [E|_]; [now destruct (H OpEq)|].
  destruct (String.eqb_spec op "!=") as [E|_]; [now destruct (H OpNe)|].
  reflexivity.
Qed.

End Evaluator.

(* ================================================================== *)
(** ** The value extractor *)
(* ================================================================== *)

Section Extractor.
Context {RT : Runtime}.

Lemma extract_value_no_match (data : PyVal) (p : string) (e : JsonPath) :
  jsonpath_parse p = Ok e ->
  jsonpath_find e data = Ok [] ->
  _extract_value data p
  = Raise (mkExc ValueError
             ("Failed to extract value using JSONPath '" ++ p ++ "': "
                ++ "JSONPath '" ++ p ++ "' found no matches in response: "
                ++ py_str data)).
Proof.
  intros Hp Hf. unfold _extract_value, try_except, rbind. now rewrite Hp, Hf.
Qed.

Lemma extract_value_first (data : PyVal) (p : string) (e : JsonPath)
    (m : PyVal) (ms : list PyVal) :
  jsonpath_parse p = Ok e ->
  jsonpath_find e data = Ok (m :: ms) ->
  _extract_value data p = Ok m.
Proof.
  intros Hp Hf. unfold _extract_value, try_except, rbind. now rewrite Hp, Hf.
Qed.

(** Whatever goes wrong inside the extractor leaves it as a [ValueError]
    whose text names the path. *)
Lemma extract_value_raises (data : PyVal) (p : string) (x : Exc) :
  _extract_value data p = Raise x ->
  exc_class x = ValueError /\ includes p (exc_str x).
Proof.
  unfold _extract_value, try_except.
  match goal with |- context [match ?b with _ => _ end] => destruct b end.
  - discriminate.
  - unfold raise. intros H. injection H as <-.
    split; [reflexivity|].
    now exists "Failed to extract value using JSONPath '", ("': " ++ exc_str e).
Qed.

End Extractor.

(* ================================================================== *)
(** ** The check executor and the poll *)
(* ================================================================== *)

Section Executor.
Context {RT : Runtime} {W : Type} {WD : World W}.

Lemma bind_ok {A B : Type} (m : M W A) (k : A -> M W B) (w w1 : W) (a : A) :
  m w = (Ok a, w1) -> bind m k w = k a w1.
Proof. intros H. unfold bind. now rewrite H. Qed.

Lemma bind_raise {A B : Type} (m : M W A) (k : A -> M W B) (w w1 : W) (e : Exc) :
  m w = (Raise e, w1) -> bind m k w = (Raise e, w1).
Proof. intros H. unfold bind. now rewrite H. Qed.

Lemma bind_inv {A B : Type} (m : M W A) (k : A -> M W B) (w w' : W) (b : B) :
  bind m k w = (Ok b, w') ->
  exists a w1, m w = (Ok a, w1) /\ k a w1 = (Ok b, w').
Proof.
  unfold bind. destruct (m w) as [[a|e] w1]; intros H.
  - now exists a, w1.
  - discriminate.
Qed.

Lemma reading_eq {A : Type} (f : W -> A * W) (w : W) :
  reading f w = (Ok (fst (f w)), snd (f w)).
Proof. unfold reading. now destruct (f w). Qed.

(** A transport failure is the failure of the check. *)
Lemma execute_check_transport_error (c : Check) (n : Z) (w w1 : W) (e : Exc) :
  http_request (query c) w = (Raise e, w1) ->
  _execute_check c n w = (Raise e, w1).
Proof. intros H. unfold _execute_check. now apply bind_raise. Qed.

(** An extraction failure is the failure of the check. *)
Lemma execute_check_extraction_error (c : Check) (n : Z) (w w1 : W)
    (doc : PyVal) (e : Exc) :
  http_request (query c) w = (Ok doc, w1) ->
  _extract_value doc (path (extract c)) = Raise e ->
  _execute_check c n w = (Raise e, w1).
Proof.
  intros H He. unfold _execute_check. rewrite (bind_ok _ _ _ _ _ H).
  unfold bind, lift. now rewrite He.
Qed.

(** A coercion failure is the failure of the check. *)
Lemma execute_check_coercion_error (c : Check) (n : Z) (w w1 : W)
    (doc v : PyVal) (e : Exc) :
  http_request (query c) w = (Ok doc, w1) ->
  _extract_value doc (path (extract c)) = Ok v ->
  _convert_type v (type (extract c)) (default (extract c)) = Raise e ->
  _execute_check c n w = (Raise e, w1).
Proof.
  intros H He Hc. unfold _execute_check. rewrite (bind_ok _ _ _ _ _ H).
  unfold bind, lift. now rewrite He, Hc.
Qed.

(** An evaluation failure is the failure of the check. *)
Lemma execute_check_evaluation_error (c : Check) (n : Z) (w w1 : W)
    (doc v v' : PyVal) (e : Exc) :
  http_request (query c) w = (Ok doc, w1) ->
  _extract_value doc (path (extract c)) = Ok v ->
  _convert_type v (type (extract c)) (default (extract c)) = Ok v' ->
  _evaluate_check (evaluate c) v' = Raise e ->
  _execute_check c n w = (Raise e, w1).
Proof.
  intros H He Hc Hv. unfold _execute_check. rewrite (bind_ok _ _ _ _ _ H).
  unfold bind, lift. now rewrite He, Hc, Hv.
Qed.

(** A check that returns is tagged with its own name and poll. *)
Lemma execute_check_tags (c : Check) (n : Z) (w w1 : W) (r : CheckResult) :
  _execute_check c n w = (Ok r, w1) ->
  check_name r = name c /\ poll_number r = n.
Proof.
  unfold _execute_check. intros H.
  apply bind_inv in H as (doc & wa & _ & H).
  apply bind_inv in H as (v & wb & _ & H).
  apply bind_inv in H as (v' & wc & _ & H).
  apply bind_inv in H as (sm & wd & _ & H).
  apply bind_inv in H as (now & we & _ & H).
  unfold ret in H. inversion H; subst. now split.
Qed.

Lemma check_result_ok (c : Check) (n : Z) (w w1 : W) (r : CheckResult) :
  _execute_check c n w = (Ok r, w1) ->
  check_result c n w = (Ok r, w1).
Proof. intros H. unfold check_result, try_catch. now rewrite H. Qed.

Lemma check_result_error (c : Check) (n : Z) (w w1 : W) (e : Exc) :
  _execute_check c n w = (Raise e, w1) ->
  check_result c n w
  = (Ok (error_result c n e (fst (datetime_now w1))), snd (datetime_now w1)).
Proof.
  intros H. unfold check_result, try_catch. rewrite H.
  unfold bind. now rewrite reading_eq.
Qed.

Lemma poll_checks_cons (c : Check) (cs : list Check) (n : Z)
    (rs : list CheckResult) (w : W) :
  poll_checks (c :: cs) n rs w
  = match check_result c n w with
    | (Ok r, w1) => poll_checks cs n (rs ++ [r])%list w1
    | (Raise e, w1) => (Raise e, w1)
    end.
Proof.
  simpl. unfold check_result, bind at 1, try_catch.
  destruct (_execute_check c n w) as [[r|e] w1] eqn:E.
  - unfold bind. rewrite E. reflexivity.
  - unfold bind. rewrite E, reading_eq. reflexivity.
Qed.

Lemma poll_checks_trace (cs : list Check) (n : Z) :
  forall (rs : list CheckResult) (w : W),
  exists out w',
    poll_checks cs n rs w = (Ok (rs ++ out)%list, w') /\
    poll_trace n cs w out w'.
Proof.
  induction cs as [|c cs IH]; intros rs w.
  - exists [], w. simpl. rewrite app_nil_r. split; [reflexivity | constructor].
  - rewrite poll_checks_cons.
    destruct (_execute_check c n w) as [[r|e] w1] eqn:E.
    + rewrite (check_result_ok _ _ _ _ _ E).
      destruct (IH (rs ++ [r])%list w1) as (out & w' & Hp & Ht).
      exists (r :: out), w'. rewrite Hp, <- app_assoc. split; [reflexivity|].
      eapply trace_ok; eassumption.
    + rewrite (check_result_error _ _ _ _ _ E).
      destruct (IH (rs ++ [error_result c n e (fst (datetime_now w1))])%list
                  (snd (datetime_now w1))) as (out & w' & Hp & Ht).
      exists (error_result c n e (fst (datetime_now w1)) :: out), w'.
      rewrite Hp, <- app_assoc. split; [reflexivity|].
      eapply trace_error; eassumption.
Qed.

Lemma poll_trace_block (n : Z) (cs : list Check) (w w' : W) (rs : list CheckResult) :
  poll_trace n cs w rs w' ->
  map check_name rs = map name cs /\ Forall (fun r => poll_number r = n) rs.
Proof.
  induction 1 as [w | c cs w w1 w2 r rs E _ [IHn IHf] | c cs w w1 w2 e rs E _ [IHn IHf]].
  - split; constructor.
  - destruct (execute_check_tags _ _ _ _ _ E) as [Hn Hp].
    simpl. rewrite Hn, IHn. split; [reflexivity | now constructor].
  - simpl. rewrite IHn. split; [reflexivity | now constructor].
Qed.

Section Poll.
Variable config : VerificationConfig.

Lemma execute_poll_trace (n : Z) (w : W) :
  exists rs w',
    _execute_poll config n w = (Ok rs, w') /\
    poll_trace n (checks config) w rs w'.
Proof.
  unfold _execute_poll.
  destruct (poll_checks_trace (checks config) n [] w) as (out & w' & Hp & Ht).
  now exists out, w'.
Qed.

Lemma execute_poll_block (n : Z) (w w' : W) (rs : list CheckResult) :
  _execute_poll config n w = (Ok rs, w') -> poll_block config n rs.
Proof.
  intros H. destruct (execute_poll_trace n w) as (rs' & w'' & H' & Ht).
  rewrite H in H'. inversion H'; subst. exact (poll_trace_block _ _ _ _ _ Ht).
Qed.

End Poll.

(** C6.  For a path that parses: when it has no match in the document,
    extraction raises an error whose text includes the path and the
    text of the document (all of it, hence also every truncation of
    it), and the check is recorded as failed with a message that
    includes the path; when it has matches, extraction returns the
    first of them. *)
Theorem extract_value_matches (data : PyVal) (p : string) (e : JsonPath) :
  jsonpath_parse p = Ok e ->
  (jsonpath_find e data = Ok [] ->
   exists msg,
     _extract_value data p = Raise (mkExc ValueError msg) /\
     includes p msg /\ includes (py_str data) msg /\
     forall n, includes (substring 0 n (py_str data)) msg) /\
  (forall m ms,
     jsonpath_find e data = Ok (m :: ms) -> _extract_value data p = Ok m) /\
  (forall (c : Check) (n : Z) (w w1 : W),
     path (extract c) = p ->
     http_request (query c) w = (Ok data, w1) ->
     jsonpath_find e data = Ok [] ->
     exists r w2,
       check_result c n w = (Ok r, w2) /\
       success r = false /\ includes p (message r)).
Proof.
  intros Hp. split; [|split].
  - intros Hf. eexists. split; [now apply (extract_value_no_match data p e)|].
    assert (Hd : includes (py_str data)
                   ("Failed to extract value using JSONPath '" ++ p ++ "': "
                      ++ "JSONPath '" ++ p ++ "' found no matches in response: "
                      ++ py_str data)).
    { do 5 apply includes_append_l. apply includes_suffix. }
    split; [apply includes_here|]. split; [exact Hd|].
    intros n. now apply includes_prefix.
  - intros m ms Hf. now apply (extract_value_first data p e m ms).
  - intros c n w w1 Hc Hr Hf.
    pose proof (extract_value_no_match data p e Hp Hf) as Hx. rewrite <- Hc in Hx.
    pose proof (execute_check_extraction_error c n w w1 data _ Hr Hx) as E.
    rewrite (check_result_error _ _ _ _ _ E).
    eexists. eexists. split; [reflexivity|]. split; [reflexivity|].
    unfold error_result. cbn [message exc_str]. rewrite Hc.
    apply includes_append_l, includes_here.
Qed.

End Executor.

(* ================================================================== *)
(** ** The cumulative list of results *)
(* ================================================================== *)

Section Filtering.
Context {A : Type} (f : A -> bool).

Lemma filter_all (l : list A) :
  Forall (fun x => f x = true) l -> filter f l = l.
Proof.
  induction 1 as [|x l Hx _ IH]; simpl; [reflexivity|]. now rewrite Hx, IH.
Qed.

Lemma filter_none (l : list A) :
  Forall (fun x => f x = false) l -> filter f l = [].
Proof.
  induction 1 as [|x l Hx _ IH]; simpl; [reflexivity|]. now rewrite Hx.
Qed.

End Filtering.

Section Cumulative.
Variable config : VerificationConfig.

Lemma polls_upto_nonneg (p : Z) (rs : list CheckResult) :
  polls_upto config p rs -> 0 <= p.
Proof. induction 1; lia. Qed.

Lemma polls_upto_range (p : Z) (rs : list CheckResult) :
  polls_upto config p rs -> Forall (fun r => 1 <= poll_number r <= p) rs.
Proof.
  induction 1 as [|p rs block Hp _ IH [_ Hb]]; [constructor|].
  apply Forall_app. split.
  - eapply Forall_impl; [|exact IH]. simpl. intros r Hr. lia.
  - eapply Forall_impl; [|exact Hb]. simpl. intros r Hr. lia.
Qed.

(** Selecting poll [q] from a block of poll [p]. *)
Lemma block_select (p q : Z) (block : list CheckResult) :
  Forall (fun r => poll_number r = p) block ->
  filter (fun r => poll_number r =? q) block = if p =? q then block else [].
Proof.
  intros Hb. destruct (Z.eqb_spec p q) as [E|E].
  - apply filter_all. eapply Forall_impl; [|exact Hb].
    simpl. intros r Hr. apply Z.eqb_eq. lia.
  - apply filter_none. eapply Forall_impl; [|exact Hb].
    simpl. intros r Hr. apply Z.eqb_neq. lia.
Qed.

(** Selecting a poll beyond those of the list yields nothing. *)
Lemma polls_upto_beyond (p q : Z) (rs : list CheckResult) :
  polls_upto config p rs -> p < q ->
  filter (fun r => poll_number r =? q) rs = [].
Proof.
  intros H Hq. apply filter_none.
  eapply Forall_impl; [|exact (polls_upto_range p rs H)].
  simpl. intros r Hr. apply Z.eqb_neq. lia.
Qed.

(** The latest results of a list that ends with the block of poll
    [p + 1] are that block. *)
Lemma latest_is_last_block (p : Z) (rs block : list CheckResult) :
  polls_upto config p rs ->
  poll_block config (p + 1) block ->
  _get_latest_results (rs ++ block) (p + 1) = block.
Proof.
  intros H [_ Hb]. unfold _get_latest_results. rewrite filter_app.
  rewrite (polls_upto_beyond p (p + 1) rs H) by lia.
  rewrite (block_select (p + 1) (p + 1) block Hb), Z.eqb_refl. reflexivity.
Qed.

(** Every poll of the list has one result per check. *)
Lemma polls_upto_select (p : Z) (rs : list CheckResult) :
  polls_upto config p rs ->
  forall q, 1 <= q <= p ->
  poll_block config q (filter (fun r => poll_number r =? q) rs).
Proof.
  induction 1 as [|p rs block Hp H IH Hb]; intros q Hq; [lia|].
  rewrite filter_app. destruct Hb as [Hn Hb].
  rewrite (block_select (p + 1) q block Hb).
  destruct (Z.eqb_spec (p + 1) q) as [E|E].
  - subst q. rewrite (polls_upto_beyond p (p + 1) rs H) by lia.
    simpl. now split.
  - rewrite app_nil_r. apply IH. lia.
Qed.

Lemma poll_block_nonempty (p : Z) (block : list CheckResult) :
  checks config <> [] -> poll_block config p block -> block <> [].
Proof.
  intros Hc [Hn _] ->. simpl in Hn. destruct (checks config); [now apply Hc | discriminate].
Qed.

End Cumulative.

(* ================================================================== *)
(** ** The verification loop *)
(* ================================================================== *)

Section Loop.
Context {RT : Runtime} {W : Type} {WD : World W}.
Variable config : VerificationConfig.

(** One iteration of the loop. *)
Lemma poll_loop_step (fuel : nat) (end_time : Q) (count : Z) (all : list CheckResult) :
  poll_loop config (S fuel) end_time count all
  = bind (reading time_time) (fun now =>
      if Qltb now end_time then
        bind (reading time_time) (fun _ =>
        bind (_execute_poll config (count + 1)) (fun poll_results =>
          match fst (_evaluate_overall config poll_results) with
          | PASSED =>
              ret (Some (PassedInLoop (count + 1) (all ++ poll_results)%list))
          | _ =>
              bind (reading time_time) (fun now =>
                if Qltb (now + inject_Z (poll_interval config)) end_time then
                  bind (time_sleep (poll_interval config)) (fun _ =>
                    poll_loop config fuel end_time (count + 1)
                      (all ++ poll_results)%list)
                else
                  ret (Some (LoopEnded (count + 1) (all ++ poll_results)%list)))
          end))
      else ret (Some (LoopEnded count all))).
Proof. reflexivity. Qed.

Lemma poll_loop_post (end_time : Q) (fuel : nat) :
  forall (count : Z) (all : list CheckResult) (w w' : W) (o : LoopOutcome),
  0 <= count ->
  polls_upto config count all ->
  poll_loop config fuel end_time count all w = (Ok (Some o), w') ->
  loop_post config count all o.
Proof.
  induction fuel as [|fuel IH]; intros count all w w' o Hc Hu H.
  - discriminate.
  - cbn [poll_loop] in H.
    unfold bind at 1 in H. rewrite reading_eq in H.
    destruct (Qltb (fst (time_time w)) end_time).
    2:{ unfold ret in H. inversion H; subst. apply post_none. }
    unfold bind at 1 in H. rewrite reading_eq in H.
    unfold bind at 1 in H.
    match type of H with context [_execute_poll config ?n ?x] =>
      destruct (execute_poll_trace config n x) as (rs & w3 & Hp & Ht)
    end.
    rewrite Hp in H.
    pose proof (poll_trace_block _ _ _ _ _ Ht) as Hb.
    destruct (fst (_evaluate_overall config rs)) eqn:Ev.
    1:{ unfold ret in H. inversion H; subst. apply post_passed; auto; lia. }
    all: unfold bind at 1 in H; rewrite reading_eq in H;
      match type of H with context [Qltb ?a ?b] => destruct (Qltb a b) end;
      [ unfold bind at 1 in H;
        match type of H with context [time_sleep ?d ?x] =>
          destruct (time_sleep d x) as [[[]|e] w5]
        end; [|discriminate];
        apply IH in H; [| lia | now apply polls_next];
        inversion H; subst;
        [ apply post_passed; auto; lia
        | apply post_failed; auto; lia
        | apply post_failed; auto; [lia | rewrite Ev; discriminate] ]
      | unfold ret in H; inversion H; subst;
        apply post_failed; auto; [lia | rewrite Ev; discriminate] ].
Qed.

(** More fuel does not change the outcome of the loop. *)
Lemma poll_loop_fuel_mono (end_time : Q) (fuel : nat) :
  forall (count : Z) (all : list CheckResult) (w w' : W) (o : LoopOutcome),
  poll_loop config fuel end_time count all w = (Ok (Some o), w') ->
  poll_loop config (S fuel) end_time count all w = (Ok (Some o), w').
Proof.
  induction fuel as [|fuel IH]; intros count all w w' o H.
  - discriminate.
  - remember (S fuel) as n eqn:En. cbn [poll_loop]. subst n.
    cbn [poll_loop] in H.
    unfold bind at 1 in H. unfold bind at 1.
    destruct (reading time_time w) as [[now|e] w1]; [|discriminate].
    destruct (Qltb now end_time); [|exact H].
    unfold bind at 1 in H. unfold bind at 1.
    destruct (reading time_time w1) as [[now2|e] w2]; [|discriminate].
    unfold bind at 1 in H. unfold bind at 1.
    destruct (_execute_poll config (count + 1) w2) as [[rs|e] w3]; [|discriminate].
    destruct (fst (_evaluate_overall config rs)); [exact H | |];
      unfold bind at 1 in H; unfold bind at 1;
      (destruct (reading time_time w3) as [[now3|e] w4]; [|discriminate]);
      (match goal with |- context [Qltb ?a ?b] => destruct (Qltb a b) end;
       [|exact H]);
      unfold bind at 1 in H; unfold bind at 1;
      (match goal with |- context [time_sleep ?d ?x] =>
         destruct (time_sleep d x) as [[[]|e] w5]
       end; [|discriminate]);
      now apply IH.
Qed.

Lemma run_inv (fuel : nat) (w w' : W) (vr : VerificationResult) :
  run config fuel w = (Ok (Some vr), w') ->
  exists o w2,
    poll_loop config fuel
      (fst (time_time w) + inject_Z (timeout config))%Q 0 [] (snd (time_time w))
    = (Ok (Some o), w2) /\
    finish config (fst (time_time w)) o w2 = (Ok vr, w').
Proof.
  unfold run. intros H.
  unfold bind at 1 in H. rewrite reading_eq in H.
  unfold bind at 1 in H.
  match type of H with context [poll_loop config fuel ?e 0 [] ?x] =>
    destruct (poll_loop config fuel e 0 [] x) as [[[o|]|e'] w2] eqn:E
  end; try discriminate.
  exists o, w2. split; [reflexivity|].
  unfold bind in H. destruct (finish config (fst (time_time w)) o w2) as [[r|e'] w3].
  - unfold ret in H. now inversion H.
  - discriminate.
Qed.

(** More fuel does not change the result of the run. *)
Lemma run_fuel_mono (fuel : nat) (w w' : W) (vr : VerificationResult) :
  run config fuel w = (Ok (Some vr), w') ->
  run config (S fuel) w = (Ok (Some vr), w').
Proof.
  intros H. destruct (run_inv fuel w w' vr H) as (o & w2 & Hl & Hf).
  apply poll_loop_fuel_mono in Hl.
  unfold run. unfold bind at 1. rewrite reading_eq.
  unfold bind at 1. rewrite Hl. unfold bind. rewrite Hf. reflexivity.
Qed.

(** The result built when the loop was left by a passing poll. *)
Lemma finish_passed (start : Q) (count : Z) (all : list CheckResult)
    (w w' : W) (vr : VerificationResult) :
  finish config start (PassedInLoop count all) w = (Ok vr, w') ->
  exists d, vr = _build_result config PASSED all count d None.
Proof.
  unfold finish, bind. rewrite reading_eq. unfold ret. intros H.
  inversion H; subst. eexists. reflexivity.
Qed.

(** The result built when the loop ended without a passing poll. *)
Lemma finish_ended (start : Q) (count : Z) (all : list CheckResult)
    (w w' : W) (vr : VerificationResult) :
  finish config start (LoopEnded count all) w = (Ok vr, w') ->
  exists d,
    (all = [] /\
     vr = _build_result config TIMEOUT all count d
            (Some "Timeout before any polls completed")) \/
    (all <> [] /\
     fst (_evaluate_overall config (_get_latest_results all count)) = PASSED /\
     vr = _build_result config PASSED all count d None) \/
    (all <> [] /\
     fst (_evaluate_overall config (_get_latest_results all count)) <> PASSED /\
     vr = _build_result config FAILED all count d
            (Some ("Checks did not pass within timeout (" ++ int_str d ++ "s)"))).
Proof.
  unfold finish, bind. rewrite reading_eq.
  set (d := py_int (fst (time_time w) - start)).
  destruct all as [|r all].
  - unfold ret. intros H. inversion H; subst. exists d. now left.
  - destruct (fst (_evaluate_overall config (_get_latest_results (r :: all) count)))
      eqn:Ev; unfold ret; intros H; inversion H; subst; exists d; right.
    + left. repeat split; discriminate.
    + right. repeat split; discriminate.
    + right. repeat split; discriminate.
Qed.

(** An exception that leaves the loop was raised by [time.sleep]: the
    polls themselves never raise. *)
Lemma poll_loop_raises (end_time : Q) (fuel : nat) :
  forall (count : Z) (all : list CheckResult) (w w' : W) (e : Exc),
  poll_loop config fuel end_time count all w = (Raise e, w') ->
  exists wa, time_sleep (poll_interval config) wa = (Raise e, w').
Proof.
  induction fuel as [|fuel IH]; intros count all w w' e H.
  - discriminate.
  - rewrite poll_loop_step in H.
    unfold bind at 1 in H. rewrite reading_eq in H.
    destruct (Qltb (fst (time_time w)) end_time); [|discriminate].
    unfold bind at 1 in H. rewrite reading_eq in H.
    unfold bind at 1 in H.
    match type of H with context [_execute_poll config ?n ?x] =>
      destruct (execute_poll_trace config n x) as (rs & w3 & Hp & _)
    end.
    rewrite Hp in H.
    destruct (fst (_evaluate_overall config rs)); [discriminate | |];
      unfold bind at 1 in H; rewrite reading_eq in H;
      (match type of H with context [Qltb ?a ?b] => destruct (Qltb a b) end;
       [|discriminate]);
      unfold bind at 1 in H;
      match type of H with context [time_sleep ?d ?x] =>
        destruct (time_sleep d x) as [[[]|e'] w5] eqn:Hs
      end;
      try (now apply IH in H);
      inversion H; subst; eexists; exact Hs.
Qed.

Lemma finish_total (start : Q) (o : LoopOutcome) (w : W) :
  exists vr w', finish config start o w = (Ok vr, w').
Proof.
  destruct o as [count all | count all]; unfold finish, bind; rewrite reading_eq.
  - eexists. eexists. reflexivity.
  - destruct all as [|r all]; [eexists; eexists; reflexivity|].
    destruct (fst (_evaluate_overall config _)); eexists; eexists; reflexivity.
Qed.

Lemma run_raises (fuel : nat) (w w' : W) (e : Exc) :
  run config fuel w = (Raise e, w') ->
  exists wa, time_sleep (poll_interval config) wa = (Raise e, w').
Proof.
  unfold run. intros H.
  unfold bind at 1 in H. rewrite reading_eq in H.
  unfold bind at 1 in H.
  match type of H with context [poll_loop config fuel ?t 0 [] ?x] =>
    destruct (poll_loop config fuel t 0 [] x) as [[[o|]|e'] w2] eqn:E
  end.
  - unfold bind in H.
    destruct (finish_total (fst (time_time w)) o w2) as (vr & w3 & Hf).
    rewrite Hf in H. discriminate.
  - discriminate.
  - inversion H; subst. eapply poll_loop_raises. exact E.
Qed.

End Loop.

Section Run.
Context {RT : Runtime} {W : Type} {WD : World W}.
Variable config : VerificationConfig.

(** The counts of a result are those of the poll numbered [poll_count]. *)
Lemma build_result_counts (st : VerificationStatus) (all : list CheckResult)
    (count d : Z) (reason : option string) :
  let vr := _build_result config st all count d reason in
  status vr = st /\
  total_polls vr = count /\
  duration vr = d /\
  failure_reason vr = reason /\
  checks_passed vr = successes (_get_latest_results all count) /\
  checks_failed vr = len (_get_latest_results all count) - checks_passed vr /\
  detailed_results vr = (if include_details (output config) then all else []).
Proof. cbv zeta. unfold _build_result, successes. simpl. repeat split. Qed.

(** A finished run, seen from its loop. *)
Lemma run_outcome (fuel : nat) (w w' : W) (vr : VerificationResult) :
  run config fuel w = (Ok (Some vr), w') ->
  exists o w2,
    poll_loop config fuel
      (fst (time_time w) + inject_Z (timeout config))%Q 0 [] (snd (time_time w))
    = (Ok (Some o), w2) /\
    finish config (fst (time_time w)) o w2 = (Ok vr, w') /\
    loop_post config 0 [] o /\
    total_polls vr = outcome_polls o /\
    checks_passed vr = successes (_get_latest_results (outcome_results o) (total_polls vr)) /\
    checks_failed vr
    = len (_get_latest_results (outcome_results o) (total_polls vr)) - checks_passed vr /\
    detailed_results vr
    = (if include_details (output config) then outcome_results o else []).
Proof.
  intros H. destruct (run_inv config fuel w w' vr H) as (o & w2 & Hl & Hf).
  exists o, w2. split; [exact Hl|]. split; [exact Hf|].
  split; [eapply (poll_loop_post config _ fuel 0 []); [lia | constructor | exact Hl]|].
  destruct o as [count all | count all].
  - destruct (finish_passed config _ _ _ _ _ _ Hf) as (d & ->).
    now destruct (build_result_counts PASSED all count d None) as (_ & -> & _ & _ & -> & -> & ->).
  - destruct (finish_ended config _ _ _ _ _ _ Hf) as (d & [(_ & ->) | [(_ & _ & ->) | (_ & _ & ->)]]);
      match goal with |- context [_build_result config ?s all count d ?r] =>
        now destruct (build_result_counts s all count d r) as (_ & -> & _ & _ & -> & -> & ->)
      end.
Qed.

Lemma loop_post_polls (o : LoopOutcome) :
  loop_post config 0 [] o ->
  polls_upto config (outcome_polls o) (outcome_results o).
Proof.
  intros H. inversion H; subst; simpl.
  - now apply polls_next.
  - now apply polls_next.
  - constructor.
Qed.

(** C5.  In every run the cumulative list of results is made of the
    results of polls 1, 2, ... up to the number of polls run: for each
    such poll number, the results tagged with it are exactly one per
    configured check, in the order of the checks (an error is a failed
    result, never a gap), and no other poll number occurs in the list. *)
Theorem cumulative_results_invariant (fuel : nat) (w w' : W) (vr : VerificationResult) :
  run config fuel w = (Ok (Some vr), w') ->
  exists o w2,
    poll_loop config fuel
      (fst (time_time w) + inject_Z (timeout config))%Q 0 [] (snd (time_time w))
    = (Ok (Some o), w2) /\
    total_polls vr = outcome_polls o /\
    (include_details (output config) = true -> detailed_results vr = outcome_results o) /\
    polls_upto config (total_polls vr) (outcome_results o) /\
    (forall p, 1 <= p <= total_polls vr ->
       map check_name (_get_latest_results (outcome_results o) p)
       = map name (checks config) /\
       len (_get_latest_results (outcome_results o) p) = len (checks config)) /\
    Forall (fun r => 1 <= poll_number r <= total_polls vr) (outcome_results o).
Proof.
  intros H.
  destruct (run_outcome fuel w w' vr H) as (o & w2 & Hl & _ & Hpost & Hn & _ & _ & Hd).
  exists o, w2. split; [exact Hl|]. split; [exact Hn|].
  split; [intros E; now rewrite Hd, E|].
  pose proof (loop_post_polls o Hpost) as Hu. rewrite <- Hn in Hu.
  split; [exact Hu|]. split.
  - intros p Hp. destruct (polls_upto_select config _ _ Hu p Hp) as [Hm _].
    split; [exact Hm|].
    unfold len, _get_latest_results. f_equal.
    rewrite <- (length_map check_name (filter _ _)), Hm. apply length_map.
  - now apply (polls_upto_range config).
Qed.

(** C4.  For a configuration with at least one check, a run reports
    [TIMEOUT] exactly when no poll completed, that is when the cumulative
    list is empty on leaving the loop, and the reason then reads
    ["Timeout before any polls completed"]; the aggregator of one poll
    never answers [TIMEOUT]. *)
Theorem run_timeout_iff (fuel : nat) (w w' : W) (vr : VerificationResult) :
  checks config <> [] ->
  run config fuel w = (Ok (Some vr), w') ->
  (status vr = TIMEOUT <-> total_polls vr = 0) /\
  (exists o w2,
     poll_loop config fuel
       (fst (time_time w) + inject_Z (timeout config))%Q 0 [] (snd (time_time w))
     = (Ok (Some o), w2) /\
     (status vr = TIMEOUT <-> outcome_results o = [])) /\
  (status vr = TIMEOUT ->
   failure_reason vr = Some "Timeout before any polls completed") /\
  (forall rs, fst (_evaluate_overall config rs) <> TIMEOUT).
Proof.
  intros Hc H.
  destruct (run_outcome fuel w w' vr H) as (o & w2 & Hl & Hf & Hpost & Hn & _).
  assert (Hs : (status vr = TIMEOUT <-> total_polls vr = 0) /\
               (status vr = TIMEOUT <-> outcome_results o = []) /\
               (status vr = TIMEOUT ->
                failure_reason vr = Some "Timeout before any polls completed")).
  { rewrite Hn. clear Hn Hl.
    inversion Hpost as [p rs block Hp Hu Hb Hev | p rs block Hp Hu Hb Hev | ]; subst o.
    - destruct (finish_passed config _ _ _ _ _ _ Hf) as (d & ->). simpl.
      pose proof (poll_block_nonempty config _ _ Hc Hb) as Hne.
      repeat split; try discriminate; try lia.
      intros E. apply app_eq_nil in E. tauto.
    - pose proof (poll_block_nonempty config _ _ Hc Hb) as Hne.
      assert (Hall : (rs ++ block)%list <> []).
      { intros E. apply app_eq_nil in E. tauto. }
      destruct (finish_ended config _ _ _ _ _ _ Hf)
        as (d & [(E & _) | [(_ & _ & ->) | (_ & _ & ->)]]);
        [contradiction | |]; simpl;
        repeat split; try discriminate; try lia; intros E; contradiction.
    - destruct (finish_ended config _ _ _ _ _ _ Hf)
        as (d & [(_ & ->) | [(E & _) | (E & _)]]);
        [| now destruct E | now destruct E].
      simpl. repeat split; reflexivity. }
  destruct Hs as (H1 & H2 & H3).
  split; [exact H1|]. split; [now exists o, w2|]. split; [exact H3|].
  apply evaluate_overall_not_timeout.
Qed.

(** C3.  A poll never raises: from any world it returns a list of
    results holding exactly one result per configured check, in order
    (the trace of the poll); whenever executing a check raises an
    exception [e], at whatever stage, the result recorded for the check
    has [success = False], [value = None] and message
    ["Error: " + str(e)]; and an exception that leaves [run] was raised
    by [time.sleep], never by a check. *)
Theorem execute_poll_total (n : Z) (w : W) :
  (exists rs w',
     _execute_poll config n w = (Ok rs, w') /\
     poll_trace n (checks config) w rs w' /\
     List.length rs = List.length (checks config)) /\
  (forall c e w0 w1,
     _execute_check c n w0 = (Raise e, w1) ->
     exists now w2,
       check_result c n w0
       = (Ok {| check_name := name c;
                success := false;
                result_value := VNone;
                expected := VNone;
                message := "Error: " ++ exc_str e;
                timestamp := now;
                poll_number := n |}, w2)) /\
  (forall fuel w0 e w1,
     run config fuel w0 = (Raise e, w1) ->
     exists wa, time_sleep (poll_interval config) wa = (Raise e, w1)).
Proof.
  split; [|split].
  - destruct (execute_poll_trace config n w) as (rs & w' & Hp & Ht).
    exists rs, w'. repeat split; try assumption.
    destruct (poll_trace_block _ _ _ _ _ Ht) as [Hn _].
    rewrite <- (length_map check_name), Hn. apply length_map.
  - intros c e w0 w1 E. rewrite (check_result_error _ _ _ _ _ E).
    eexists. eexists. reflexivity.
  - intros fuel w0 e w1. apply run_raises.
Qed.

(** When the loop ends after at least one poll, the poll that is
    evaluated again is the one that just failed: the verdict is
    [FAILED]. *)
Lemma run_ended_failed (start : Q) (count : Z) (all : list CheckResult)
    (w w' : W) (vr : VerificationResult) :
  checks config <> [] ->
  loop_post config 0 [] (LoopEnded count all) ->
  1 <= count ->
  finish config start (LoopEnded count all) w = (Ok vr, w') ->
  all <> [] /\
  fst (_evaluate_overall config (_get_latest_results all count)) <> PASSED /\
  status vr = FAILED.
Proof.
  intros Hc Hpost Hcount Hf.
  inversion Hpost as [ | p rs block Hp Hu Hb Hev | ]; subst; [|lia].
  pose proof (poll_block_nonempty config _ _ Hc Hb) as Hne.
  assert (Hall : (rs ++ block)%list <> []).
  { intros E. apply app_eq_nil in E. tauto. }
  rewrite (latest_is_last_block config p rs block Hu Hb) in *.
  split; [exact Hall|]. split; [exact Hev|].
  destruct (finish_ended config _ _ _ _ _ _ Hf)
    as (d & [(E & _) | [(_ & E & _) | (_ & _ & ->)]]).
  - contradiction.
  - rewrite (latest_is_last_block config p rs block Hu Hb) in E. contradiction.
  - reflexivity.
Qed.

(** C1, as the code has it.  In every result of a run (of a
    configuration with at least one check) the counts [checks_passed]
    and [checks_failed] are those of the results tagged with the total
    poll count; the detailed list is the whole cumulative list when
    [include_details] is set, and empty otherwise.  When the loop ends
    without a passing poll after at least one poll, the verdict comes
    from evaluating again the results of the last poll alone: [PASSED]
    if they pass, otherwise [FAILED] with the reason
    ["Checks did not pass within timeout (<duration>s)"]. *)
Theorem run_final_verdict (fuel : nat) (w w' : W) (vr : VerificationResult) :
  checks config <> [] ->
  run config fuel w = (Ok (Some vr), w') ->
  exists o w2,
    poll_loop config fuel
      (fst (time_time w) + inject_Z (timeout config))%Q 0 [] (snd (time_time w))
    = (Ok (Some o), w2) /\
    total_polls vr = outcome_polls o /\
    checks_passed vr
    = successes (_get_latest_results (outcome_results o) (total_polls vr)) /\
    checks_failed vr
    = len (_get_latest_results (outcome_results o) (total_polls vr)) - checks_passed vr /\
    detailed_results vr
    = (if include_details (output config) then outcome_results o else []) /\
    (forall count all,
       o = LoopEnded count all -> 1 <= count ->
       (fst (_evaluate_overall config (_get_latest_results all count)) = PASSED ->
        status vr = PASSED) /\
       (fst (_evaluate_overall config (_get_latest_results all count)) <> PASSED ->
        status vr = FAILED /\
        failure_reason vr
        = Some ("Checks did not pass within timeout (" ++ int_str (duration vr) ++ "s)"))).
Proof.
  intros Hc H.
  destruct (run_outcome fuel w w' vr H)
    as (o & w2 & Hl & Hf & Hpost & Hn & Hp & Hfl & Hd).
  exists o, w2. repeat (split; [assumption|]).
  intros count all -> Hcount.
  destruct (run_ended_failed _ _ _ _ _ _ Hc Hpost Hcount Hf) as (Hall & Hev & Hst).
  split; [intros E; contradiction|]. intros _.
  split; [exact Hst|].
  destruct (finish_ended config _ _ _ _ _ _ Hf)
    as (d & [(E & _) | [(_ & E & _) | (_ & _ & ->)]]);
    [contradiction | contradiction | reflexivity].
Qed.

End Run.

(* ================================================================== *)
(** ** Termination *)
(* ================================================================== *)

Lemma Qltb_lt (a b : Q) : Qltb a b = true <-> (a < b)%Q.
Proof.
  unfold Qltb. rewrite negb_true_iff. split.
  - intros H. apply Qnot_le_lt. intros L. apply Qle_bool_iff in L. congruence.
  - intros H. destruct (Qle_bool b a) eqn:E; [|reflexivity].
    apply Qle_bool_iff in E. exfalso. exact (Qlt_not_le _ _ H E).
Qed.

Section Termination.
Context {RT : Runtime} {W : Type} {WD : World W}.
Variable config : VerificationConfig.

(** The instant a world is at. *)
Variable clock : W -> Q.

(** The clock never runs backwards, a reading of it lies between the
    instants before and after the reading, and sleeping [d] seconds
    returns at least [d] seconds later. *)
Hypothesis clock_read :
  forall w, (clock w <= fst (time_time w) /\
             fst (time_time w) <= clock (snd (time_time w)))%Q.
Hypothesis clock_now : forall w, (clock w <= clock (snd (datetime_now w)))%Q.
Hypothesis clock_request : forall q, advances clock (http_request q).
Hypothesis clock_sleep :
  forall d w, 0 <= d ->
  exists w', time_sleep d w = (Ok tt, w') /\ (clock w + inject_Z d <= clock w')%Q.
Hypothesis interval_positive : 0 < poll_interval config.

Lemma advances_ret {A : Type} (a : A) : advances clock (ret a).
Proof. intros w. apply Qle_refl. Qed.

Lemma advances_lift {A : Type} (r : Result A) : advances clock (lift r).
Proof. intros w. apply Qle_refl. Qed.

Lemma advances_reading {A : Type} (f : W -> A * W) :
  (forall w, (clock w <= clock (snd (f w)))%Q) -> advances clock (reading f).
Proof. intros H w. rewrite reading_eq. apply H. Qed.

Lemma advances_bind {A B : Type} (m : M W A) (k : A -> M W B) :
  advances clock m -> (forall a, advances clock (k a)) -> advances clock (bind m k).
Proof.
  intros Hm Hk w. unfold bind. specialize (Hm w).
  destruct (m w) as [[a|e] w1]; simpl in *.
  - eapply Qle_trans; [exact Hm | apply Hk].
  - exact Hm.
Qed.

Lemma advances_try_catch {A : Type} (m : M W A) (h : Exc -> M W A) :
  advances clock m -> (forall e, advances clock (h e)) -> advances clock (try_catch m h).
Proof.
  intros Hm Hh w. unfold try_catch. specialize (Hm w).
  destruct (m w) as [[a|e] w1]; simpl in *.
  - exact Hm.
  - eapply Qle_trans; [exact Hm | apply Hh].
Qed.

Lemma execute_check_advances (c : Check) (n : Z) :
  advances clock (_execute_check c n).
Proof.
  unfold _execute_check.
  apply advances_bind; [apply clock_request | intros doc].
  apply advances_bind; [apply advances_lift | intros v].
  apply advances_bind; [apply advances_lift | intros v'].
  apply advances_bind; [apply advances_lift | intros sm].
  apply advances_bind; [apply advances_reading, clock_now | intros now].
  apply advances_ret.
Qed.

Lemma poll_checks_advances (cs : list Check) (n : Z) :
  forall rs, advances clock (poll_checks cs n rs).
Proof.
  induction cs as [|c cs IH]; intros rs; simpl.
  - apply advances_ret.
  - apply advances_bind; [|intros rs'; apply IH].
    apply advances_try_catch.
    + apply advances_bind; [apply execute_check_advances | intros r; apply advances_ret].
    + intros e. apply advances_bind;
        [apply advances_reading, clock_now | intros now; apply advances_ret].
Qed.

Lemma execute_poll_advances (n : Z) : advances clock (_execute_poll config n).
Proof. apply poll_checks_advances. Qed.

(** With [n] poll intervals left before the deadline, [n + 1]
    iterations are enough for the loop to be left. *)
Lemma poll_loop_enough (end_time : Q) (n : nat) :
  forall (count : Z) (all : list CheckResult) (w : W),
  (end_time - clock w < inject_Z (Z.of_nat n) * inject_Z (poll_interval config))%Q ->
  exists o w', poll_loop config (S n) end_time count all w = (Ok (Some o), w').
Proof.
  induction n as [|n IH]; intros count all w Hn;
    rewrite poll_loop_step; unfold bind at 1; rewrite reading_eq;
    destruct (clock_read w) as [Hr1 Hr2];
    (destruct (Qltb (fst (time_time w)) end_time) eqn:Hlt;
     [apply Qltb_lt in Hlt | eexists; eexists; reflexivity]).
  - exfalso. change (inject_Z (Z.of_nat 0)) with 0%Q in Hn. lra.
  - unfold bind at 1. rewrite reading_eq.
    destruct (clock_read (snd (time_time w))) as [Hr3 Hr4].
    unfold bind at 1.
    match goal with |- context [_execute_poll config ?k ?x] =>
      destruct (execute_poll_trace config k x) as (rs & w3 & Hp & _);
      pose proof (execute_poll_advances k x) as Ha
    end.
    rewrite Hp in Ha |- *. simpl in Ha.
    assert (Hstep :
      forall w4, (clock w3 <= clock w4)%Q ->
      forall w5, (clock w4 + inject_Z (poll_interval config) <= clock w5)%Q ->
      (end_time - clock w5
       < inject_Z (Z.of_nat n) * inject_Z (poll_interval config))%Q).
    { intros w4 H4 w5 H5. rewrite Nat2Z.inj_succ in Hn.
      unfold Z.succ in Hn. rewrite inject_Z_plus in Hn.
      change (inject_Z 1) with 1%Q in Hn. lra. }
    destruct (fst (_evaluate_overall config rs));
      [eexists; eexists; reflexivity | |];
      unfold bind at 1; rewrite reading_eq;
      destruct (clock_read w3) as [Hr5 Hr6];
      (match goal with |- context [Qltb ?a ?b] => destruct (Qltb a b) end;
       [|eexists; eexists; reflexivity]);
      unfold bind at 1;
      (destruct (clock_sleep (poll_interval config) (snd (time_time w3)))
         as (w5 & Hs & Hc); [lia|]);
      rewrite Hs; apply IH; apply (Hstep (snd (time_time w3))); try assumption;
      eapply Qle_trans; eassumption.
Qed.

Lemma enough_fuel_covers :
  (inject_Z (timeout config)
   < inject_Z (Z.of_nat (Z.to_nat (timeout config / poll_interval config + 1)))
     * inject_Z (poll_interval config))%Q.
Proof.
  rewrite <- inject_Z_mult, <- Zlt_Qlt.
  pose proof (Z.div_mod (timeout config) (poll_interval config)) as Hd.
  pose proof (Z.mod_pos_bound (timeout config) (poll_interval config) interval_positive) as Hm.
  specialize (Hd ltac:(lia)).
  set (q := timeout config / poll_interval config) in *.
  assert (Hn : Z.of_nat (Z.to_nat (q + 1)) = Z.max 0 (q + 1)) by lia.
  rewrite Hn. nia.
Qed.

(** Under a well-behaved clock and a positive poll interval, a run with
    [enough_fuel] returns a result. *)
Theorem run_terminates (w : W) :
  exists vr w', run config (enough_fuel config) w = (Ok (Some vr), w').
Proof.
  unfold run, enough_fuel. unfold bind at 1. rewrite reading_eq.
  destruct (clock_read w) as [Hr1 Hr2].
  unfold bind at 1.
  match goal with |- context [poll_loop config (S ?n) ?e 0 [] ?x] =>
    destruct (poll_loop_enough e n 0 [] x) as (o & w2 & Hl)
  end.
  { pose proof enough_fuel_covers as Hc. lra. }
  rewrite Hl. unfold bind.
  destruct (finish_total config (fst (time_time w)) o w2) as (vr & w3 & Hf).
  rewrite Hf. eexists. eexists. reflexivity.
Qed.

End Termination.

(** The mock world has a well-behaved clock: on it every run with a
    positive poll interval returns a result. *)
Theorem mock_run_terminates (config : VerificationConfig) (w : MockWorld) :
  0 < poll_interval config ->
  exists vr w', run config (enough_fuel config) w = (Ok (Some vr), w').
Proof.
  intros Hi. apply (run_terminates config mock_clock).
  - intros w0. simpl. split; apply Qle_refl.
  - intros w0. simpl. apply Qle_refl.
  - intros q w0. cbn [http_request mock_world]. unfold mock_request.
    destruct (mock_responses w0); cbn [snd mock_clock]; [apply Qle_refl|].
    rewrite Qred_correct.
    assert (0 <= inject_Z (Z.of_nat (mock_latency w0)))%Q.
    { change 0%Q with (inject_Z 0). rewrite <- Zle_Qle. lia. }
    lra.
  - intros d w0 Hd. cbn [time_sleep mock_world]. unfold mock_sleep.
    destruct (Z.ltb_spec d 0); [lia|].
    eexists. split; [reflexivity|]. cbn [mock_clock].
    rewrite Qred_correct. apply Qle_refl.
  - exact Hi.
Qed.

(* ================================================================== *)
(** ** The engine at work: the scenarios of the test suite *)
(* ================================================================== *)

(** [test_simple_threshold_pass]: five errors against a limit of ten. *)
Example test_simple_threshold_pass :
  exists vr w,
    run (test_config [error_check] true 1 5) 10 (test_world ["5"]) = (Ok (Some vr), w) /\
    status vr = PASSED /\ checks_passed vr = 1 /\ checks_failed vr = 0 /\
    total_polls vr = 1.
Proof. eexists. eexists. split; [vm_compute; reflexivity|]. repeat split. Qed.

(** [test_simple_threshold_fail]: fifty errors at each of five polls. *)
Example test_simple_threshold_fail :
  exists vr w,
    run (test_config [error_check] true 1 5) 10
      (test_world ["50"; "50"; "50"; "50"; "50"]) = (Ok (Some vr), w) /\
    status vr = FAILED /\ checks_passed vr = 0 /\ checks_failed vr = 1.
Proof. eexists. eexists. split; [vm_compute; reflexivity|]. repeat split. Qed.

(** [test_polling_until_pass]: the third poll passes. *)
Example test_polling_until_pass :
  exists vr w,
    run (test_config [error_check] true 1 10) 20
      (test_world ["50"; "20"; "5"]) = (Ok (Some vr), w) /\
    status vr = PASSED /\ total_polls vr = 3.
Proof. eexists. eexists. split; [vm_compute; reflexivity|]. repeat split. Qed.

(** [test_multiple_checks_all_pass]: two checks, both passing. *)
Example test_multiple_checks_all_pass :
  exists vr w,
    run (test_config [error_count_check "error_count";
                      error_count_check "error_count_duplicate"] true 1 5) 10
      (test_world ["5"; "5"]) = (Ok (Some vr), w) /\
    status vr = PASSED /\ checks_passed vr = 2 /\ checks_failed vr = 0.
Proof. eexists. eexists. split; [vm_compute; reflexivity|]. repeat split. Qed.

(* ================================================================== *)
(** ** The statements at concrete inputs *)
(* ================================================================== *)

(** C2 at a poll of three results, two of them successful, under a
    threshold of two. *)
Lemma evaluate_overall_by_mode_witness :
  [plain_result "a" true; plain_result "b" false; plain_result "c" true] <> [] /\
  (fst (_evaluate_overall (threshold_config 2)
          [plain_result "a" true; plain_result "b" false; plain_result "c" true])
   = PASSED <->
   2 <= successes [plain_result "a" true; plain_result "b" false; plain_result "c" true]).
Proof.
  split; [discriminate|].
  refine (proj1 (proj2 (proj2
    (evaluate_overall_by_mode (threshold_config 2)
       [plain_result "a" true; plain_result "b" false; plain_result "c" true] _)))
    2 eq_refl eq_refl _).
  - discriminate.
  - vm_compute. split; discriminate.
Defined.

(** C10 under a threshold of one. *)
Lemma evaluate_overall_empty_witness :
  EvaluationConfig_valid (evaluation (threshold_config 1)) /\
  fst (_evaluate_overall (threshold_config 1) []) = FAILED.
Proof.
  assert (Hv : EvaluationConfig_valid (evaluation (threshold_config 1))).
  { intros _. exists 1. split; [reflexivity | discriminate]. }
  split; [exact Hv|].
  exact (proj2 (proj2 (evaluate_overall_empty (threshold_config 1) Hv)) eq_refl).
Defined.

(** C6 on a Prometheus document and a path that selects nothing in it. *)
Lemma extract_value_matches_witness :
  jsonpath_parse "$.data.nothing" = Ok [Field "data"; Field "nothing"] /\
  exists msg,
    _extract_value (prometheus_response "50") "$.data.nothing"
    = Raise (mkExc ValueError msg) /\
    includes "$.data.nothing" msg /\
    includes (py_str (prometheus_response "50")) msg.
Proof.
  split; [reflexivity|].
  destruct (proj1 (extract_value_matches (RT := ref_runtime) (W := MockWorld)
              (prometheus_response "50") "$.data.nothing"
              ([Field "data"; Field "nothing"] : @JsonPath ref_runtime) eq_refl)
              eq_refl)
    as (msg & Hm & Hp & Hd & _).
  now exists msg.
Defined.

(** C4 on a run whose time limit is zero. *)
Lemma run_timeout_iff_witness :
  checks (test_config [error_check] true 1 0) <> [] /\
  run (test_config [error_check] true 1 0) 5 (test_world ["50"])
  = (Ok (Some no_poll_result), test_world ["50"]) /\
  (status no_poll_result = TIMEOUT <-> total_polls no_poll_result = 0).
Proof.
  split; [discriminate|]. split; [vm_compute; reflexivity|].
  refine (proj1 (run_timeout_iff (test_config [error_check] true 1 0) 5
                   (test_world ["50"]) (test_world ["50"]) no_poll_result _ _)).
  - discriminate.
  - vm_compute. reflexivity.
Defined.

(** C5 on a run of two failing polls. *)
Lemma cumulative_results_invariant_witness :
  run (test_config [error_check] true 1 2) 5 (test_world ["50"; "50"])
  = (Ok (Some (two_polls_result [fifty_errors 0 1; fifty_errors 1 2])),
     drained_world 1) /\
  exists o,
    outcome_polls o = 2 /\
    polls_upto (test_config [error_check] true 1 2) 2 (outcome_results o).
Proof.
  assert (Hrun : run (test_config [error_check] true 1 2) 5 (test_world ["50"; "50"])
                 = (Ok (Some (two_polls_result [fifty_errors 0 1; fifty_errors 1 2])),
                    drained_world 1)).
  { vm_compute. reflexivity. }
  split; [exact Hrun|].
  destruct (cumulative_results_invariant _ _ _ _ _ Hrun)
    as (o & w2 & _ & Hn & _ & Hu & _).
  exists o. split; [symmetry; exact Hn | exact Hu].
Defined.

(** C1 on a run of two failing polls. *)
Lemma run_final_verdict_witness :
  checks (test_config [error_check] true 1 2) <> [] /\
  run (test_config [error_check] true 1 2) 5 (test_world ["50"; "50"])
  = (Ok (Some (two_polls_result [fifty_errors 0 1; fifty_errors 1 2])),
     drained_world 1) /\
  exists o,
    detailed_results (two_polls_result [fifty_errors 0 1; fifty_errors 1 2])
    = outcome_results o /\
    checks_passed (two_polls_result [fifty_errors 0 1; fifty_errors 1 2])
    = successes (_get_latest_results (outcome_results o) 2).
Proof.
  assert (Hne : checks (test_config [error_check] true 1 2) <> []) by discriminate.
  assert (Hrun : run (test_config [error_check] true 1 2) 5 (test_world ["50"; "50"])
                 = (Ok (Some (two_polls_result [fifty_errors 0 1; fifty_errors 1 2])),
                    drained_world 1)).
  { vm_compute. reflexivity. }
  split; [exact Hne|]. split; [exact Hrun|].
  destruct (run_final_verdict _ _ _ _ _ Hne Hrun)
    as (o & w2 & _ & _ & Hp & _ & Hd & _).
  exists o. split; [exact Hd | exact Hp].
Defined.

(* ================================================================== *)
(** ** Where the code departs from the statements *)
(* ================================================================== *)

(** C1 as stated fails: with [include_details] unset, a run of two polls
    returns an empty detailed list, so the results of the earlier poll
    (and of the last one) are not in it. *)
Lemma run_without_details :
  run (test_config [error_check] false 1 2) 5 (test_world ["50"; "50"])
  = (Ok (Some (two_polls_result [])), drained_world 1) /\
  total_polls (two_polls_result []) = 2 /\
  detailed_results (two_polls_result []) = [].
Proof. split; [vm_compute; reflexivity | split; reflexivity]. Qed.

(** C8 as stated fails: a string other than ["false"], ["0"] and the
    empty string is sent to [False]. *)
Lemma convert_boolean_uppercase :
  "FALSE" <> "false" /\ "FALSE" <> "0" /\ "FALSE" <> "" /\
  _convert_type (VStr "FALSE") "boolean" VNone = Ok (VBool false).
Proof. repeat split; discriminate. Qed.

(** C9 as stated fails: for the operator [<], a string value and an
    integer threshold, the evaluator returns no pair but raises. *)
Lemma evaluate_check_type_error :
  _evaluate_check {| operator := "<"; value := TInt 10 |} (VStr "5")
  = Raise (mkExc TypeError "'<' not supported between instances of 'str' and 'int'").
Proof. reflexivity. Qed.

(* ================================================================== *)
(** ** What a run reports *)
(* ================================================================== *)

Section Reported.
Context {RT : Runtime} {W : Type} {WD : World W}.
Variable config : VerificationConfig.

Lemma failed_upto_polls (p : Z) (rs : list CheckResult) :
  failed_upto config p rs -> polls_upto config p rs.
Proof. induction 1; [constructor | now apply polls_next]. Qed.

(** Every poll of a list of failed polls fails when evaluated alone. *)
Lemma failed_upto_select (p : Z) (rs : list CheckResult) :
  failed_upto config p rs ->
  forall q, 1 <= q <= p ->
  fst (_evaluate_overall config (_get_latest_results rs q)) <> PASSED.
Proof.
  induction 1 as [|p rs block Hp H IH Hb Hev]; intros q Hq; [lia|].
  unfold _get_latest_results. rewrite filter_app.
  destruct Hb as [Hn Hb].
  rewrite (block_select (p + 1) q block Hb).
  destruct (Z.eqb_spec (p + 1) q) as [E|E].
  - subst q.
    rewrite (polls_upto_beyond config p (p + 1) rs (failed_upto_polls _ _ H)) by lia.
    exact Hev.
  - rewrite app_nil_r. apply IH. lia.
Qed.

(** The loop keeps the polls it has run and found failing; it is left
    by [return] at the first poll that passes. *)
Lemma poll_loop_failed (end_time : Q) (fuel : nat) :
  forall (count : Z) (all : list CheckResult) (w w' : W) (o : LoopOutcome),
  0 <= count ->
  failed_upto config count all ->
  poll_loop config fuel end_time count all w = (Ok (Some o), w') ->
  match o with
  | PassedInLoop c a =>
      exists rs block,
        a = (rs ++ block)%list /\ failed_upto config (c - 1) rs /\
        poll_block config c block /\ 1 <= c /\
        fst (_evaluate_overall config block) = PASSED
  | LoopEnded c a => failed_upto config c a
  end.
Proof.
  induction fuel as [|fuel IH]; intros count all w w' o Hc Hu H.
  - discriminate.
  - rewrite poll_loop_step in H.
    unfold bind at 1 in H. rewrite reading_eq in H.
    destruct (Qltb (fst (time_time w)) end_time).
    2:{ unfold ret in H. inversion H; subst. exact Hu. }
    unfold bind at 1 in H. rewrite reading_eq in H.
    unfold bind at 1 in H.
    match type of H with context [_execute_poll config ?n ?x] =>
      destruct (execute_poll_trace config n x) as (rs & w3 & Hp & Ht)
    end.
    rewrite Hp in H.
    pose proof (poll_trace_block _ _ _ _ _ Ht) as Hb.
    destruct (fst (_evaluate_overall config rs)) eqn:Ev.
    1:{ unfold ret in H. inversion H; subst.
        exists all, rs. replace (count + 1 - 1) with count by lia.
        repeat split; try assumption; try lia; apply Hb. }
    all: assert (Hnext : failed_upto config (count + 1) (all ++ rs)%list)
           by (apply failed_next; auto; congruence);
      unfold bind at 1 in H; rewrite reading_eq in H;
      match type of H with context [Qltb ?a ?b] => destruct (Qltb a b) end;
      [ unfold bind at 1 in H;
        match type of H with context [time_sleep ?d ?x] =>
          destruct (time_sleep d x) as [[[]|e] w5]
        end; [|discriminate];
        apply IH in H; [exact H | lia | exact Hnext]
      | unfold ret in H; inversion H; subst; exact Hnext ].
Qed.

Lemma polls_upto_zero (rs : list CheckResult) :
  polls_upto config 0 rs -> rs = [].
Proof.
  intros H. inversion H as [|p rs' block Hp _ _ E]; [reflexivity | lia].
Qed.

Lemma polls_upto_length (p : Z) (rs : list CheckResult) :
  polls_upto config p rs -> len rs = p * len (checks config).
Proof.
  induction 1 as [|p rs block Hp _ IH [Hn _]]; [reflexivity|].
  assert (Hb : len block = len (checks config)).
  { unfold len. rewrite <- (length_map check_name block), Hn. now rewrite length_map. }
  unfold len in *. rewrite length_app. lia.
Qed.

(** The verdict of a poll is the verdict of its two counts. *)
Lemma evaluate_overall_counts (rs : list CheckResult) :
  fst (_evaluate_overall config rs) = PASSED <->
  counts_pass config (successes rs) (len rs - successes rs) = true.
Proof.
  unfold _evaluate_overall, counts_pass, successes.
  destruct (mode (evaluation config)).
  - destruct (Z.eqb_spec (len (filter success rs)) (len rs)) as [E|E]; simpl.
    + rewrite E, Z.sub_diag. tauto.
    + split; [discriminate|]. intros H. apply Z.eqb_eq in H. lia.
  - destruct (0 <? len (filter success rs)); simpl; [tauto|].
    split; discriminate.
  - destruct (min_passed (evaluation config)) as [k|];
      match goal with |- context [?a <=? ?b] => destruct (a <=? b) end;
      simpl; try tauto; split; discriminate.
Qed.

(** A finished run, with the verdicts of its polls. *)
Lemma run_polls (fuel : nat) (w w' : W) (vr : VerificationResult) :
  run config fuel w = (Ok (Some vr), w') ->
  exists o w2,
    poll_loop config fuel
      (fst (time_time w) + inject_Z (timeout config))%Q 0 [] (snd (time_time w))
    = (Ok (Some o), w2) /\
    finish config (fst (time_time w)) o w2 = (Ok vr, w') /\
    total_polls vr = outcome_polls o /\
    checks_passed vr = successes (_get_latest_results (outcome_results o) (total_polls vr)) /\
    checks_failed vr
    = len (_get_latest_results (outcome_results o) (total_polls vr)) - checks_passed vr /\
    detailed_results vr
    = (if include_details (output config) then outcome_results o else []) /\
    polls_upto config (outcome_polls o) (outcome_results o) /\
    match o with
    | PassedInLoop c a =>
        exists rs block,
          a = (rs ++ block)%list /\ failed_upto config (c - 1) rs /\
          poll_block config c block /\ 1 <= c /\
          fst (_evaluate_overall config block) = PASSED
    | LoopEnded c a => failed_upto config c a
    end.
Proof.
  intros H.
  destruct (run_outcome config fuel w w' vr H)
    as (o & w2 & Hl & Hf & Hpost & Hn & Hp & Hfl & Hd).
  exists o, w2. repeat (split; [assumption|]).
  split; [now apply loop_post_polls|].
  eapply (poll_loop_failed _ fuel 0 []); [lia | constructor | exact Hl].
Qed.

Lemma successes_bounds (rs : list CheckResult) : 0 <= successes rs <= len rs.
Proof.
  unfold successes, len. pose proof (filter_length_bound success rs). lia.
Qed.

Lemma latest_of_polls (p : Z) (rs : list CheckResult) :
  polls_upto config p rs ->
  len (_get_latest_results rs p) = (if p =? 0 then 0 else len (checks config)).
Proof.
  intros H. destruct (Z.eqb_spec p 0) as [E|E].
  - subst p. now rewrite (polls_upto_zero _ H).
  - pose proof (polls_upto_nonneg config _ _ H) as Hp.
    destruct (polls_upto_select config _ _ H p ltac:(lia)) as [Hn _].
    unfold len, _get_latest_results.
    rewrite <- (length_map check_name (filter _ _)), Hn. now rewrite length_map.
Qed.

Lemma run_counts (fuel : nat) (w w' : W) (vr : VerificationResult) :
  run config fuel w = (Ok (Some vr), w') ->
  0 <= total_polls vr /\
  0 <= checks_passed vr /\ 0 <= checks_failed vr /\
  checks_passed vr + checks_failed vr
  = (if total_polls vr =? 0 then 0 else len (checks config)).
Proof.
  intros H.
  destruct (run_polls fuel w w' vr H)
    as (o & w2 & _ & _ & Hn & Hp & Hf & _ & Hu & _).
  rewrite <- Hn in Hu.
  pose proof (polls_upto_nonneg config _ _ Hu) as H0.
  pose proof (latest_of_polls _ _ Hu) as Hl.
  pose proof (successes_bounds (_get_latest_results (outcome_results o) (total_polls vr))) as Hb.
  rewrite Hf, Hp. repeat split; lia.
Qed.

(** X1.  The two counts of a result are non-negative and add up to the
    number of configured checks, or to zero when no poll was run. *)
Theorem run_counts_add_up (fuel : nat) (w w' : W) (vr : VerificationResult) :
  run config fuel w = (Ok (Some vr), w') ->
  0 <= total_polls vr /\
  0 <= checks_passed vr /\ 0 <= checks_failed vr /\
  checks_passed vr + checks_failed vr
  = (if total_polls vr =? 0 then 0 else len (checks config)).
Proof. apply run_counts. Qed.

Lemma run_passed_iff (fuel : nat) (w w' : W) (vr : VerificationResult) :
  run config fuel w = (Ok (Some vr), w') ->
  (status vr = PASSED <->
   1 <= total_polls vr /\
   counts_pass config (checks_passed vr) (checks_failed vr) = true).
Proof.
  intros H.
  destruct (run_polls fuel w w' vr H)
    as (o & w2 & _ & Hfin & Hn & Hp & Hf & _ & Hu & Ho).
  rewrite Hf, Hp, <- evaluate_overall_counts, Hn. clear Hn Hp Hf.
  destruct o as [c a | c a]; cbn [outcome_polls outcome_results] in *.
  - destruct Ho as (rs & block & -> & Hfu & Hb & Hc & Hev).
    destruct (finish_passed config _ _ _ _ _ _ Hfin) as (d & ->). simpl.
    replace c with (c - 1 + 1) in Hb |- * by lia.
    rewrite (latest_is_last_block config _ _ _ (failed_upto_polls _ _ Hfu) Hb).
    split; [intros _; split; [lia | exact Hev] | reflexivity].
  - assert (Hno : 1 <= c ->
              fst (_evaluate_overall config (_get_latest_results a c)) <> PASSED).
    { intros Hc. apply (failed_upto_select c a Ho). lia. }
    destruct (finish_ended config _ _ _ _ _ _ Hfin)
      as (d & [(_ & ->) | [(Hne & E & _) | (_ & _ & ->)]]); simpl.
    + split; [discriminate | intros [Hc E]; now destruct (Hno Hc)].
    + exfalso. destruct (Z.le_gt_cases 1 c) as [Hc|Hc]; [now apply (Hno Hc)|].
      pose proof (polls_upto_nonneg config _ _ Hu).
      assert (E0 : c = 0) by lia. rewrite E0 in Hu. now apply Hne, polls_upto_zero.
    + split; [discriminate | intros [Hc E]; now destruct (Hno Hc)].
Qed.

(** X2.  The verdict can be recomputed from the counts: a run is [PASSED]
    exactly when it ran a poll and the counts it reports satisfy the
    evaluation mode. *)
Theorem run_verdict_from_counts (fuel : nat) (w w' : W) (vr : VerificationResult) :
  run config fuel w = (Ok (Some vr), w') ->
  (status vr = PASSED <->
   1 <= total_polls vr /\
   counts_pass config (checks_passed vr) (checks_failed vr) = true).
Proof. apply run_passed_iff. Qed.

(** A run that reports [TIMEOUT] reports no result at all. *)
Lemma run_timeout_empty (fuel : nat) (w w' : W) (vr : VerificationResult) :
  run config fuel w = (Ok (Some vr), w') ->
  status vr = TIMEOUT ->
  checks_passed vr = 0 /\ checks_failed vr = 0 /\ detailed_results vr = [].
Proof.
  intros H Ht.
  destruct (run_inv config fuel w w' vr H) as (o & w2 & _ & Hf).
  destruct o as [c a | c a].
  - destruct (finish_passed config _ _ _ _ _ _ Hf) as (d & ->). discriminate.
  - destruct (finish_ended config _ _ _ _ _ _ Hf)
      as (d & [(-> & ->) | [(_ & _ & ->) | (_ & _ & ->)]]); try discriminate.
    unfold _build_result. simpl.
    destruct (include_details (output config)); repeat split; reflexivity.
Qed.

(** X3.  A run returns at the first poll that passes: every poll before the
    last one failed when it was evaluated, and the run is [PASSED]
    exactly when its last poll passes. *)
Theorem run_stops_at_first_pass (fuel : nat) (w w' : W) (vr : VerificationResult) :
  run config fuel w = (Ok (Some vr), w') ->
  exists o w2,
    poll_loop config fuel
      (fst (time_time w) + inject_Z (timeout config))%Q 0 [] (snd (time_time w))
    = (Ok (Some o), w2) /\
    total_polls vr = outcome_polls o /\
    (forall p, 1 <= p < total_polls vr ->
       fst (_evaluate_overall config (_get_latest_results (outcome_results o) p))
       <> PASSED) /\
    (status vr = PASSED <->
     1 <= total_polls vr /\
     fst (_evaluate_overall config
            (_get_latest_results (outcome_results o) (total_polls vr))) = PASSED).
Proof.
  intros H.
  pose proof (run_passed_iff fuel w w' vr H) as Hv.
  destruct (run_polls fuel w w' vr H)
    as (o & w2 & Hl & _ & Hn & Hp & Hf & _ & Hu & Ho).
  exists o, w2. split; [exact Hl|]. split; [exact Hn|]. split.
  - rewrite Hn. clear Hv Hp Hf. intros p Hpp.
    destruct o as [c a | c a]; cbn [outcome_polls outcome_results] in *.
    + destruct Ho as (rs & block & -> & Hfu & [_ Hb] & Hc & _).
      unfold _get_latest_results. rewrite filter_app.
      rewrite (block_select c p block Hb).
      destruct (Z.eqb_spec c p); [lia|]. rewrite app_nil_r.
      apply (failed_upto_select (c - 1) rs Hfu). lia.
    + apply (failed_upto_select c a Ho). lia.
  - rewrite Hv, Hf, Hp, <- evaluate_overall_counts. reflexivity.
Qed.

(** X4.  With details requested, the detailed list holds one result per check
    for every poll run; without, it is empty. *)
Theorem run_detailed_length (fuel : nat) (w w' : W) (vr : VerificationResult) :
  run config fuel w = (Ok (Some vr), w') ->
  len (detailed_results vr)
  = (if include_details (output config)
     then total_polls vr * len (checks config) else 0).
Proof.
  intros H.
  destruct (run_polls fuel w w' vr H)
    as (o & w2 & _ & _ & Hn & _ & _ & Hd & Hu & _).
  rewrite Hd, Hn. destruct (include_details (output config)); [|reflexivity].
  now apply polls_upto_length.
Qed.

(** A property that every result of a check has, whether the check
    returned or raised, holds of every result the loop collects. *)
Section Uniform.
Variable P : CheckResult -> Prop.
Hypothesis P_ok :
  forall c n w r w1, _execute_check c n w = (Ok r, w1) -> P r.
Hypothesis P_error :
  forall c n w e w1 now,
    _execute_check c n w = (Raise e, w1) -> P (error_result c n e now).

Lemma poll_trace_forall (n : Z) (cs : list Check) (w w1 : W) (rs : list CheckResult) :
  poll_trace n cs w rs w1 -> Forall P rs.
Proof.
  induction 1 as [w | c cs w w1 w2 r rs E _ IH | c cs w w1 w2 e rs E _ IH];
    constructor; eauto.
Qed.

Lemma poll_loop_forall (end_time : Q) (fuel : nat) :
  forall (count : Z) (all : list CheckResult) (w w1 : W) (o : LoopOutcome),
  Forall P all ->
  poll_loop config fuel end_time count all w = (Ok (Some o), w1) ->
  Forall P (outcome_results o).
Proof.
  induction fuel as [|fuel IH]; intros count all w w1 o Hall H.
  - discriminate.
  - rewrite poll_loop_step in H.
    unfold bind at 1 in H. rewrite reading_eq in H.
    destruct (Qltb (fst (time_time w)) end_time).
    2:{ unfold ret in H. inversion H; subst. exact Hall. }
    unfold bind at 1 in H. rewrite reading_eq in H.
    unfold bind at 1 in H.
    match type of H with context [_execute_poll config ?k ?x] =>
      destruct (execute_poll_trace config k x) as (rs & w3 & Hp & Ht)
    end.
    rewrite Hp in H.
    assert (Hall' : Forall P (all ++ rs)%list).
    { apply Forall_app. split; [exact Hall | exact (poll_trace_forall _ _ _ _ _ Ht)]. }
    destruct (fst (_evaluate_overall config rs)).
    1:{ unfold ret in H. inversion H; subst. exact Hall'. }
    all: unfold bind at 1 in H; rewrite reading_eq in H;
      match type of H with context [Qltb ?a ?b] => destruct (Qltb a b) end;
      [ unfold bind at 1 in H;
        destruct (time_sleep (poll_interval config) (snd (time_time w3)))
          as [[[]|e] w5]; [|discriminate];
        exact (IH _ _ _ _ _ Hall' H)
      | unfold ret in H; inversion H; subst; exact Hall' ].
Qed.

End Uniform.

End Reported.

(* ================================================================== *)
(** ** The validators and the aggregator *)
(* ================================================================== *)

From Stdlib Require Import Permutation.

Lemma filter_length_permutation {A : Type} (f : A -> bool) (l l' : list A) :
  Permutation l l' -> List.length (filter f l) = List.length (filter f l').
Proof.
  induction 1 as [|x l l' _ IH|x y l|l l' l'' _ IH1 _ IH2]; simpl.
  - reflexivity.
  - destruct (f x); simpl; now rewrite IH.
  - destruct (f x), (f y); reflexivity.
  - now rewrite IH1.
Qed.

Section Policy.
Variable config : VerificationConfig.

(** X6.  The verdict and the reason of a poll do not depend on the order of
    its results. *)
Theorem evaluate_overall_permutation (rs rs' : list CheckResult) :
  Permutation rs rs' ->
  _evaluate_overall config rs = _evaluate_overall config rs'.
Proof.
  intros H. unfold _evaluate_overall, len.
  rewrite (filter_length_permutation success rs rs' H).
  now rewrite (Permutation_length H).
Qed.

(** X7.  The validator of the evaluation policy returns the policy unchanged
    when it accepts it, and accepts it exactly when, in mode THRESHOLD,
    [min_passed] is present and at least 1. *)
Theorem validate_threshold_mode_accepts (e : EvaluationConfig) :
  (forall e', validate_threshold_mode e = Ok e' -> e' = e) /\
  ((exists e', validate_threshold_mode e = Ok e') <-> EvaluationConfig_valid e) /\
  (forall x, validate_threshold_mode e = Raise x -> exc_class x = ValueError).
Proof.
  unfold validate_threshold_mode, EvaluationConfig_valid.
  split; [|split].
  - intros e' H. destruct (mode e); try congruence.
    destruct (min_passed e) as [k|]; [|discriminate].
    destruct (k <? 1); [discriminate | congruence].
  - split.
    + intros (e' & H) Hm. rewrite Hm in H.
      destruct (min_passed e) as [k|]; [|discriminate].
      destruct (Z.ltb_spec k 1); [discriminate|].
      exists k. split; [reflexivity | lia].
    + intros Hv. destruct (mode e) eqn:Hm; try (now exists e).
      destruct (Hv eq_refl) as (k & -> & Hk).
      destruct (Z.ltb_spec k 1); [lia | now exists e].
  - intros x H. destruct (mode e); try discriminate.
    destruct (min_passed e) as [k|]; [destruct (k <? 1); [|discriminate]|];
      unfold raise in H; now injection H as <-.
Qed.

(** X8.  With an accepted configuration a poll in which every check succeeds
    passes, whatever the evaluation mode. *)
Theorem accepted_config_can_pass (p : Z) (rs : list CheckResult) :
  VerificationConfig_accepted config ->
  poll_block config p rs ->
  Forall (fun r => success r = true) rs ->
  fst (_evaluate_overall config rs) = PASSED.
Proof.
  intros (Hne & Hv1 & Hv2) Hb Hall.
  pose proof (poll_block_nonempty config p rs Hne Hb) as Hrs.
  assert (Hlen : len rs = len (checks config)).
  { destruct Hb as [Hn _]. unfold len.
    rewrite <- (length_map check_name rs), Hn. now rewrite length_map. }
  assert (Hs : successes rs = len rs).
  { unfold successes. now apply len_filter_all. }
  destruct (mode (evaluation config)) eqn:Hm.
  - now apply evaluate_overall_all_pass.
  - apply evaluate_overall_any_pass; [exact Hm|].
    destruct rs as [|r rs]; [congruence|]. inversion Hall; subst. now left.
  - unfold validate_threshold_mode in Hv1.
    unfold validate_threshold_against_checks in Hv2.
    rewrite Hm in Hv1, Hv2.
    destruct (min_passed (evaluation config)) as [k|] eqn:Hk; [|discriminate].
    destruct (Z.ltb_spec k 1); [discriminate|].
    destruct (Z.eqb_spec k 0); [lia|].
    destruct (Z.ltb_spec (len (checks config)) k); [discriminate|].
    apply (evaluate_overall_threshold config rs k Hm Hk); lia.
Qed.

(** X9.  What the cross-field validator is for: when [min_passed] exceeds
    the number of checks, no poll can pass. *)
Theorem rejected_threshold_never_passes (p k : Z) (rs : list CheckResult) :
  mode (evaluation config) = THRESHOLD ->
  min_passed (evaluation config) = Some k ->
  len (checks config) < k ->
  (exists x, validate_threshold_against_checks config = Raise x /\
             exc_class x = ValueError) /\
  (poll_block config p rs -> fst (_evaluate_overall config rs) = FAILED).
Proof.
  intros Hm Hk Hlt.
  assert (Hpos : 0 <= len (checks config)) by apply len_nonneg.
  split.
  - unfold validate_threshold_against_checks. rewrite Hm, Hk.
    destruct (Z.eqb_spec k 0); [lia|].
    destruct (Z.ltb_spec (len (checks config)) k); [|lia].
    simpl. eexists. split; reflexivity.
  - intros [Hn _].
    assert (Hlen : len rs = len (checks config)).
    { unfold len. rewrite <- (length_map check_name rs), Hn. now rewrite length_map. }
    pose proof (successes_bounds rs) as Hb.
    destruct (evaluate_overall_two_valued config rs) as [E|E]; [|exact E].
    apply (evaluate_overall_threshold config rs k Hm Hk) in E; lia.
Qed.

End Policy.

(** X10.  The evaluation modes are ordered: on a poll, passing under ALL_PASS
    implies passing under THRESHOLD (for [1 <= min_passed <= number of
    results]), which implies passing under ANY_PASS. *)
Theorem evaluate_overall_modes_ordered
    (c_all c_thr c_any : VerificationConfig) (k : Z) (rs : list CheckResult) :
  mode (evaluation c_all) = ALL_PASS ->
  mode (evaluation c_thr) = THRESHOLD ->
  min_passed (evaluation c_thr) = Some k ->
  1 <= k <= len rs ->
  mode (evaluation c_any) = ANY_PASS ->
  (fst (_evaluate_overall c_all rs) = PASSED ->
   fst (_evaluate_overall c_thr rs) = PASSED) /\
  (fst (_evaluate_overall c_thr rs) = PASSED ->
   fst (_evaluate_overall c_any rs) = PASSED).
Proof.
  intros Hall Hthr Hk Hkr Hany. split; intros H.
  - apply (evaluate_overall_threshold c_thr rs k Hthr Hk); [lia|].
    apply (evaluate_overall_all_pass c_all rs Hall) in H.
    apply len_filter_all in H. unfold successes. lia.
  - apply (evaluate_overall_threshold c_thr rs k Hthr Hk) in H; [|lia].
    apply (evaluate_overall_any_pass c_any rs Hany).
    apply len_filter_some. unfold successes in H. lia.
Qed.

(* ================================================================== *)
(** ** More on the stages of a check *)
(* ================================================================== *)

Section StageFacts.
Context {RT : Runtime}.

(** X11.  What the coercer returns is of the target type, except that for the
    target type [number] (or a type name it does not know) it may be the
    configured default; for [string], [boolean] and [json] the default is
    never used. *)
Theorem convert_type_typed (v : PyVal) (t : string) (d r : PyVal) :
  _convert_type v t d = Ok r ->
  (t = "number" /\ ((exists f, r = VFloat f) \/ (r = d /\ d <> VNone))) \/
  (t = "string" /\ r = VStr (py_str v)) \/
  (t = "boolean" /\ exists b, r = VBool b) \/
  (t = "json" /\ r = v) \/
  (t <> "number" /\ t <> "string" /\ t <> "boolean" /\ t <> "json" /\
   r = d /\ d <> VNone).
Proof.
  unfold _convert_type, convert_body.
  destruct (String.eqb_spec t "number") as [->|N1].
  { intros H. left. split; [reflexivity|].
    destruct (py_float v) as [f|x]; simpl in H.
    - injection H as <-. left. now exists f.
    - right. destruct (exc_class x); try discriminate;
        destruct d; try discriminate; injection H as <-;
        split; try reflexivity; discriminate. }
  destruct (String.eqb_spec t "string") as [->|N2].
  { intros H. injection H as <-. right. left. now split. }
  destruct (String.eqb_spec t "boolean") as [->|N3].
  { intros H. right. right. left. split; [reflexivity|].
    destruct v; injection H as <-; eexists; reflexivity. }
  destruct (String.eqb_spec t "json") as [->|N4].
  { intros H. injection H as <-. right. right. right. left. now split. }
  intros H. do 4 right. simpl in H.
  destruct d; try discriminate; injection H as <-;
    repeat split; try assumption; discriminate.
Qed.

(** X12.  The coercer raises in two cases only: a conversion that failed with
    no default configured, reported as a [ValueError] that names the
    value and the target type; and an integer too large for a float,
    whose [OverflowError] passes through.  For the target types
    [string], [boolean] and [json] it never raises. *)
Theorem convert_type_raises (v : PyVal) (t : string) (d : PyVal) (e : Exc) :
  _convert_type v t d = Raise e ->
  (d = VNone /\
   e = mkExc ValueError
         ("Cannot convert '" ++ py_str v ++ "' to " ++ t ++ " and no default provided") /\
   t <> "string" /\ t <> "boolean" /\ t <> "json") \/
  (e = mkExc OverflowError "int too large to convert to float" /\
   t = "number" /\ exists z, v = VInt z).
Proof.
  unfold _convert_type. intros H.
  destruct (convert_body v t) as [r|x] eqn:Hb; [discriminate|].
  assert (Ht : t <> "string" /\ t <> "boolean" /\ t <> "json").
  { unfold convert_body in Hb. repeat split; intros ->; simpl in Hb;
      try discriminate; destruct v; discriminate. }
  destruct (convert_body_raises v t x Hb) as [Hc | [Hc | (Hc & -> & z & ->)]].
  - left. rewrite Hc in H. destruct d; try discriminate.
    unfold raise in H. injection H as <-. now repeat split.
  - left. rewrite Hc in H. destruct d; try discriminate.
    unfold raise in H. injection H as <-. now repeat split.
  - right. rewrite Hc in H. injection H as <-.
    unfold convert_body, py_float in Hb. simpl in Hb.
    destruct (float_of_int z); [discriminate|].
    unfold raise in Hb. simpl in Hb. injection Hb as <-.
    repeat split. now exists z.
Qed.

(** X13.  Whatever fails inside the extractor, a path that does not parse, an
    evaluation of the path that raises, or an empty list of matches,
    leaves it as a [ValueError] whose text names the path and ends with
    the text of the original error. *)
Theorem extract_value_wraps (data : PyVal) (p : string) :
  (forall x,
     jsonpath_parse p = Raise x ->
     _extract_value data p
     = Raise (mkExc ValueError
                ("Failed to extract value using JSONPath '" ++ p ++ "': " ++ exc_str x))) /\
  (forall e x,
     jsonpath_parse p = Ok e ->
     jsonpath_find e data = Raise x ->
     _extract_value data p
     = Raise (mkExc ValueError
                ("Failed to extract value using JSONPath '" ++ p ++ "': " ++ exc_str x))) /\
  (forall x,
     _extract_value data p = Raise x ->
     exc_class x = ValueError /\ includes p (exc_str x)).
Proof.
  split; [|split].
  - intros x H. unfold _extract_value, try_except, rbind. now rewrite H.
  - intros e x Hp Hf. unfold _extract_value, try_except, rbind. now rewrite Hp, Hf.
  - apply extract_value_raises.
Qed.

Lemma py_compare_equality (v : PyVal) (e : ThresholdValue) :
  exists b, py_compare OpEq v e = Ok b /\ py_compare OpNe v e = Ok (negb b).
Proof.
  unfold py_compare.
  destruct (as_num v) as [a|], (as_num (threshold_to_py e)) as [n|];
    try (destruct (num_compare a n) as [[]|]; eexists; split; reflexivity);
    destruct v, e; try (eexists; split; reflexivity);
    match goal with |- context [String.compare ?s ?t] =>
      destruct (String.compare s t); eexists; split; reflexivity
    end.
Qed.

(** X14.  The equality operators never raise, whatever the types of the value
    and of the threshold, and a check with [!=] succeeds exactly when
    the same check with [==] fails. *)
Theorem evaluate_check_equality (v : PyVal) (e : ThresholdValue) :
  exists b m1 m2,
    _evaluate_check {| operator := "=="; value := e |} v = Ok (b, m1) /\
    _evaluate_check {| operator := "!="; value := e |} v = Ok (negb b, m2).
Proof.
  destruct (py_compare_equality v e) as (b & He & Hn).
  pose proof (evaluate_check_dispatch OpEq e v) as H1.
  pose proof (evaluate_check_dispatch OpNe e v) as H2.
  rewrite He in H1. rewrite Hn in H2. cbn [op_symbol] in H1, H2.
  exists b. destruct b; cbn [negb] in H2; eexists; eexists; split; eassumption.
Qed.

End StageFacts.

(* ================================================================== *)
(** ** The number of polls of a run *)
(* ================================================================== *)

Section Budget.
Context {RT : Runtime} {W : Type} {WD : World W}.
Variable config : VerificationConfig.

(** The instant a world is at, with the same assumptions on the clock
    as for termination. *)
Variable clock : W -> Q.

Hypothesis clock_read :
  forall w, (clock w <= fst (time_time w) /\
             fst (time_time w) <= clock (snd (time_time w)))%Q.
Hypothesis clock_now : forall w, (clock w <= clock (snd (datetime_now w)))%Q.
Hypothesis clock_request : forall q, advances clock (http_request q).
Hypothesis clock_sleep :
  forall d w, 0 <= d ->
  exists w', time_sleep d w = (Ok tt, w') /\ (clock w + inject_Z d <= clock w')%Q.
Hypothesis interval_positive : 0 < poll_interval config.

(** With [n] poll intervals left before the deadline, the loop runs at
    most [n] more polls. *)
Lemma poll_loop_budget (end_time : Q) (fuel : nat) :
  forall (n : nat) (count : Z) (all : list CheckResult) (w w' : W) (o : LoopOutcome),
  (end_time - clock w < inject_Z (Z.of_nat n) * inject_Z (poll_interval config))%Q ->
  poll_loop config fuel end_time count all w = (Ok (Some o), w') ->
  outcome_polls o <= count + Z.of_nat n.
Proof.
  induction fuel as [|fuel IH]; intros n count all w w' o Hn H.
  - discriminate.
  - rewrite poll_loop_step in H.
    unfold bind at 1 in H. rewrite reading_eq in H.
    destruct (clock_read w) as [Hr1 Hr2].
    destruct (Qltb (fst (time_time w)) end_time) eqn:Hlt.
    2:{ unfold ret in H. inversion H; subst. simpl. lia. }
    apply Qltb_lt in Hlt.
    destruct n as [|n].
    { exfalso. change (inject_Z (Z.of_nat 0)) with 0%Q in Hn. lra. }
    unfold bind at 1 in H. rewrite reading_eq in H.
    destruct (clock_read (snd (time_time w))) as [Hr3 Hr4].
    unfold bind at 1 in H.
    match type of H with context [_execute_poll config ?k ?x] =>
      destruct (execute_poll_trace config k x) as (rs & w3 & Hp & _);
      pose proof (execute_poll_advances config clock clock_now clock_request k x) as Ha
    end.
    rewrite Hp in Ha, H. simpl in Ha.
    assert (Hstep :
      forall w4, (clock w3 <= clock w4)%Q ->
      forall w5, (clock w4 + inject_Z (poll_interval config) <= clock w5)%Q ->
      (end_time - clock w5
       < inject_Z (Z.of_nat n) * inject_Z (poll_interval config))%Q).
    { intros w4 H4 w5 H5. rewrite Nat2Z.inj_succ in Hn.
      unfold Z.succ in Hn. rewrite inject_Z_plus in Hn.
      change (inject_Z 1) with 1%Q in Hn. lra. }
    destruct (fst (_evaluate_overall config rs)).
    1:{ unfold ret in H. inversion H; subst. simpl. lia. }
    all: unfold bind at 1 in H; rewrite reading_eq in H;
      destruct (clock_read w3) as [Hr5 Hr6];
      match type of H with context [Qltb ?a ?b] => destruct (Qltb a b) end;
      [ unfold bind at 1 in H;
        destruct (clock_sleep (poll_interval config) (snd (time_time w3)))
          as (w5 & Hs & Hc); [lia|];
        rewrite Hs in H;
        apply (IH n) in H;
        [ lia
        | apply (Hstep (snd (time_time w3))); [eapply Qle_trans; eassumption | exact Hc] ]
      | unfold ret in H; inversion H; subst; simpl; lia ].
Qed.

(** X5.  Under a well-behaved clock and a positive poll interval a run
    returns a result, and it polls at most
    [timeout // poll_interval + 1] times. *)
Theorem run_within_budget (w : W) :
  (exists vr w', run config (enough_fuel config) w = (Ok (Some vr), w')) /\
  (forall fuel vr w',
     run config fuel w = (Ok (Some vr), w') ->
     total_polls vr <= Z.max 0 (timeout config / poll_interval config + 1)).
Proof.
  split.
  - exact (run_terminates config clock clock_read clock_now clock_request
             clock_sleep interval_positive w).
  - intros fuel vr w' H.
    destruct (run_outcome config fuel w w' vr H) as (o & w2 & Hl & _ & _ & Hn & _).
    rewrite Hn.
    destruct (clock_read w) as [Hr1 Hr2].
    pose proof (enough_fuel_covers config interval_positive) as Hc.
    apply (poll_loop_budget _ fuel
             (Z.to_nat (timeout config / poll_interval config + 1))) in Hl.
    + lia.
    + lra.
Qed.

End Budget.

Lemma mock_clock_read (w : MockWorld) :
  (mock_clock w <= fst (time_time w) /\
   fst (time_time w) <= mock_clock (snd (time_time w)))%Q.
Proof. split; apply Qle_refl. Qed.

Lemma mock_clock_now (w : MockWorld) :
  (mock_clock w <= mock_clock (snd (datetime_now w)))%Q.
Proof. apply Qle_refl. Qed.

Lemma mock_clock_request (q : QueryConfig) : advances mock_clock (http_request q).
Proof.
  intros w. cbn [http_request mock_world]. unfold mock_request.
  destruct (mock_responses w); cbn [snd mock_clock]; [apply Qle_refl|].
  rewrite Qred_correct.
  assert (0 <= inject_Z (Z.of_nat (mock_latency w)))%Q.
  { change 0%Q with (inject_Z 0). rewrite <- Zle_Qle. lia. }
  lra.
Qed.

Lemma mock_clock_sleep (d : Z) (w : MockWorld) :
  0 <= d ->
  exists w', time_sleep d w = (Ok tt, w') /\
             (mock_clock w + inject_Z d <= mock_clock w')%Q.
Proof.
  intros Hd. cbn [time_sleep mock_world]. unfold mock_sleep.
  destruct (Z.ltb_spec d 0); [lia|].
  eexists. split; [reflexivity|]. cbn [mock_clock].
  rewrite Qred_correct. apply Qle_refl.
Qed.

(** The budget on the mock world, for a run of five seconds polled every
    second. *)
Lemma run_within_budget_witness :
  0 < poll_interval (test_config [error_check] true 1 5) /\
  forall fuel vr w',
    run (test_config [error_check] true 1 5) fuel
      (test_world ["50"; "50"; "50"; "50"; "50"]) = (Ok (Some vr), w') ->
    total_polls vr <= 6.
Proof.
  split; [reflexivity|].
  exact (proj2 (run_within_budget (test_config [error_check] true 1 5) mock_clock
                  mock_clock_read mock_clock_now mock_clock_request mock_clock_sleep
                  eq_refl (test_world ["50"; "50"; "50"; "50"; "50"]))).
Defined.

(* ================================================================== *)
(** ** Authentication settings and the HTTP client *)
(* ================================================================== *)

(** X15.  The dump of the authentication settings never shows a secret: a
    token or a password that is set (not empty) is replaced by the
    redaction mark, the other three fields are dumped as they are, and
    the keys are those of the five fields, in order. *)
Theorem model_dump_redacts (a : AuthConfig) :
  map fst (model_dump a) = ["method"; "token"; "username"; "password"; "header_name"] /\
  py_get (model_dump a) "token"
  = (if truthy (token a) then VStr REDACTED else py_opt_str (token a)) /\
  py_get (model_dump a) "password"
  = (if truthy (password a) then VStr REDACTED else py_opt_str (password a)) /\
  py_get (model_dump a) "method" = VStr (AuthMethod_value (auth_method a)) /\
  py_get (model_dump a) "username" = py_opt_str (username a) /\
  py_get (model_dump a) "header_name" = py_opt_str (header_name a).
Proof.
  unfold model_dump.
  destruct (token a) as [[|c1 t1]|], (password a) as [[|c2 t2]|];
    repeat split; reflexivity.
Qed.

Lemma rstrip_slash_snoc (s : string) : rstrip_slash (s ++ "/") = rstrip_slash s.
Proof.
  induction s as [|c s IH]; [reflexivity|].
  simpl. now rewrite IH.
Qed.

Lemma append_slash_nonempty (t : string) : t ++ "/" <> "".
Proof. destruct t; discriminate. Qed.

Lemma rstrip_slash_no_slash (s t : string) : rstrip_slash s <> t ++ "/".
Proof.
  revert t. induction s as [|c s IH]; intros t E.
  - symmetry in E. exact (append_slash_nonempty t E).
  - simpl in E. destruct (rstrip_slash s) as [|c' s'] eqn:Hs.
    + destruct (Ascii.eqb_spec c "/") as [Hc|Hc].
      * symmetry in E. exact (append_slash_nonempty t E).
      * destruct t as [|c0 t]; simpl in E.
        { injection E as E1. now destruct Hc. }
        { injection E as E1 E2. symmetry in E2. exact (append_slash_nonempty t E2). }
    + destruct t as [|c0 t]; simpl in E.
      { discriminate. }
      { injection E as E1 E2. exact (IH t E2). }
Qed.

Lemma lstrip_slash_no_slash (s t : string) : lstrip_slash s <> String "/" t.
Proof.
  induction s as [|c s IH]; simpl; [discriminate|].
  destruct c as [[] [] [] [] [] [] [] []]; try (intros E; discriminate E); exact IH.
Qed.

Section ClientFacts.
Context {H : Type} {HD : Host H}.

Lemma HTTPClient_init_base (url : string) (a : AuthConfig) (vs : bool)
    (cb : option string) (h h' : H) (c : HTTPClient) :
  HTTPClient_init url a vs cb h = (Ok c, h') ->
  base_url c = rstrip_slash url /\ client_auth c = a.
Proof.
  unfold HTTPClient_init. intros E.
  apply bind_inv in E as (v & h1 & _ & E).
  unfold ret in E. injection E as <- _. now split.
Qed.

(** X16.  Slashes at the joint of the base URL and the endpoint do not matter:
    a client built from a base URL with an extra trailing slash, or a
    query whose endpoint has an extra leading slash, requests the same
    URL, in which the base part does not end with a slash and the
    endpoint part does not start with one. *)
Theorem request_url_slashes (url : string) (a : AuthConfig) (vs : bool)
    (cb : option string) (h h1 h2 : H) (c c' : HTTPClient) (q q' : QueryConfig) :
  HTTPClient_init url a vs cb h = (Ok c, h1) ->
  HTTPClient_init (url ++ "/") a vs cb h = (Ok c', h2) ->
  endpoint q' = "/" ++ endpoint q ->
  request_url c' q = request_url c q /\
  request_url c q' = request_url c q /\
  request_url c q = rstrip_slash url ++ "/" ++ lstrip_slash (endpoint q) /\
  (forall t, rstrip_slash url <> t ++ "/") /\
  (forall t, lstrip_slash (endpoint q) <> "/" ++ t).
Proof.
  intros E E' Hq.
  destruct (HTTPClient_init_base _ _ _ _ _ _ _ E) as [Hb _].
  destruct (HTTPClient_init_base _ _ _ _ _ _ _ E') as [Hb' _].
  unfold request_url. rewrite Hb, Hb', Hq, rstrip_slash_snoc.
  repeat split.
  - intros t. apply rstrip_slash_no_slash.
  - intros t. apply lstrip_slash_no_slash.
Qed.

Lemma validate_auth_method_ok (a a' : AuthConfig) :
  validate_auth_method a = Ok a' ->
  a' = a /\
  match auth_method a with
  | BASIC => truthy (username a) = true /\ truthy (password a) = true
  | BEARER => truthy (token a) = true
  | API_KEY | HEADER => truthy (token a) = true /\ truthy (header_name a) = true
  | NONE => True
  end.
Proof.
  unfold validate_auth_method.
  destruct (auth_method a);
    destruct (truthy (token a)), (truthy (username a)), (truthy (password a)),
      (truthy (header_name a)); simpl; intros E;
    try discriminate; injection E as <-; auto.
Qed.

Lemma request_credentials (c : HTTPClient) (a' : AuthConfig)
    (q : QueryConfig) (h : H) :
  validate_auth_method (client_auth c) = Ok a' ->
  auth_method (client_auth c) <> NONE ->
  HTTPClient_request c q h
  = (Raise (mkExc LibraryError "'str' object has no attribute 'get_secret_value'"), h).
Proof.
  intros Hv Hm. apply validate_auth_method_ok in Hv as [_ Hv].
  unfold HTTPClient_request, bind, lift, _build_auth_headers, basic_credentials.
  destruct (auth_method (client_auth c)); try (now destruct Hm).
  - rewrite Hv. reflexivity.
  - destruct Hv as [_ Hp]. rewrite Hp. reflexivity.
  - destruct Hv as [Ht Hh]. rewrite Ht, Hh. reflexivity.
  - destruct Hv as [Ht Hh]. rewrite Ht, Hh. reflexivity.
Qed.

(** X17.  With authentication settings that passed their validator, a request
    reaches the network only when the method is [none]: for the four
    other methods the client calls [get_secret_value()] on a secret that
    is a plain string, and the request raises before anything is sent. *)
Theorem request_with_credentials_raises (c : HTTPClient) (a' : AuthConfig)
    (q : QueryConfig) (h : H) :
  validate_auth_method (client_auth c) = Ok a' ->
  auth_method (client_auth c) <> NONE ->
  HTTPClient_request c q h
  = (Raise (mkExc LibraryError "'str' object has no attribute 'get_secret_value'"), h).
Proof. apply request_credentials. Qed.

Lemma substring_length_bound (n : nat) (s : string) :
  (String.length (substring 0 n s) <= n)%nat.
Proof.
  revert s. induction n as [|n IH]; intros s.
  - destruct s; simpl; lia.
  - destruct s as [|c s]; simpl; [lia|]. specialize (IH s). lia.
Qed.

Lemma substring_all (n : nat) (s : string) :
  (String.length s <= n)%nat -> substring 0 n s = s.
Proof.
  revert s. induction n as [|n IH]; intros s Hs.
  - destruct s; [reflexivity | simpl in Hs; lia].
  - destruct s as [|c s]; [reflexivity|]. simpl in *. rewrite IH; [reflexivity | lia].
Qed.

Lemma string_length_append (a b : string) :
  String.length (a ++ b) = (String.length a + String.length b)%nat.
Proof. induction a as [|c a IH]; simpl; [reflexivity | now rewrite IH]. Qed.

(** X19.  A response that is not JSON is reported by a [ValueError] that
    quotes at most the first 200 characters of the body: the message is
    never longer than 232 characters, and quotes a short body whole. *)
Theorem decode_response_excerpt (r : Response) :
  status_error r = None ->
  response_json r = None ->
  exists msg,
    decode_response r = Raise (mkExc ValueError msg) /\
    msg = "Expected JSON response but got: " ++ substring 0 200 (response_text r) /\
    (String.length msg <= 232)%nat /\
    ((String.length (response_text r) <= 200)%nat ->
     msg = "Expected JSON response but got: " ++ response_text r).
Proof.
  intros Hs Hj. unfold decode_response. rewrite Hs, Hj.
  eexists. split; [reflexivity|]. split; [reflexivity|]. split.
  - rewrite string_length_append.
    pose proof (substring_length_bound 200 (response_text r)).
    change (String.length "Expected JSON response but got: ") with 32%nat. lia.
  - intros Hl. now rewrite substring_all.
Qed.

(** Without authentication a request is one call of [httpx], to the
    joined URL and with the headers of the query; what the call raises,
    the request raises; otherwise the request returns the decoded
    document, or raises the status error or the error of a body that is
    not JSON. *)
Theorem request_without_auth (c : HTTPClient) (q : QueryConfig) (h : H) :
  auth_method (client_auth c) = NONE ->
  HTTPClient_request c q h
  = match httpx_request (client_verify c)
            (request_call c q (dict_update [] (headers q)) None) h with
    | (Ok response, h') => (decode_response response, h')
    | (Raise e, h') => (Raise e, h')
    end.
Proof.
  intros Hm.
  unfold HTTPClient_request, bind, lift, _build_auth_headers, basic_credentials.
  rewrite Hm. reflexivity.
Qed.

End ClientFacts.

Lemma forall_filter {A : Type} (P : A -> Prop) (f : A -> bool) (l : list A) :
  Forall P l -> Forall P (filter f l).
Proof.
  induction 1 as [|x l Hx _ IH]; simpl; [constructor|].
  destruct (f x); [now constructor | exact IH].
Qed.

Section Credentials.
Context {RT : Runtime} {H : Type} {HD : Host H}.

(** X18.  With any authentication method other than [none], verification
    cannot pass: every check of every poll ends as the error result of
    the failed call of [get_secret_value()], so a run of an accepted
    configuration reports no passed check and is never [PASSED]. *)
Theorem credentials_never_pass (c : HTTPClient) (a' : AuthConfig)
    (config : VerificationConfig) (fuel : nat) (h h' : H) (vr : VerificationResult) :
  validate_auth_method (client_auth c) = Ok a' ->
  auth_method (client_auth c) <> NONE ->
  VerificationConfig_accepted config ->
  run (WD := client_world c) config fuel h = (Ok (Some vr), h') ->
  status vr <> PASSED /\
  checks_passed vr = 0 /\
  Forall (fun r => success r = false /\
                   message r = "Error: 'str' object has no attribute 'get_secret_value'")
    (detailed_results vr).
Proof.
  intros Hv Hm (Hne & Hv1 & _) Hrun.
  set (P := fun r : CheckResult =>
              success r = false /\
              message r = "Error: 'str' object has no attribute 'get_secret_value'").
  assert (Hexec : forall check n w,
            _execute_check (WD := client_world c) check n w
            = (Raise (mkExc LibraryError
                        "'str' object has no attribute 'get_secret_value'"), w)).
  { intros check n w. unfold _execute_check. apply bind_raise.
    cbn [http_request client_world]. now apply (request_credentials c a'). }
  destruct (run_polls (WD := client_world c) config fuel h h' vr Hrun)
    as (o & w2 & Hl & _ & Hn & Hp & _ & Hd & _ & _).
  assert (Hall : Forall P (outcome_results o)).
  { apply (poll_loop_forall (WD := client_world c) config P) in Hl.
    - exact Hl.
    - intros ch n w r w1 E. rewrite Hexec in E. discriminate.
    - intros ch n w e w1 now E. rewrite Hexec in E. injection E as <- _.
      split; reflexivity.
    - constructor. }
  assert (Hz : checks_passed vr = 0).
  { rewrite Hp. unfold successes. rewrite filter_none; [reflexivity|].
    apply forall_filter. eapply Forall_impl; [|exact Hall]. now intros r [Hs _]. }
  split; [|split; [exact Hz|]].
  - intros Hs.
    apply (run_passed_iff (WD := client_world c) config fuel h h' vr Hrun) in Hs
      as [Hpolls Hc].
    destruct (run_counts (WD := client_world c) config fuel h h' vr Hrun)
      as (_ & _ & _ & Hsum).
    destruct (Z.eqb_spec (total_polls vr) 0) as [E0|_]; [lia|].
    rewrite Hz in Hc, Hsum. unfold counts_pass in Hc.
    unfold validate_threshold_mode in Hv1.
    destruct (mode (evaluation config)).
    + apply Z.eqb_eq in Hc. apply Hne.
      destruct (checks config); [reflexivity|].
      unfold len in Hsum. simpl in Hsum. lia.
    + discriminate.
    + destruct (min_passed (evaluation config)) as [k|]; [|discriminate].
      destruct (Z.ltb_spec k 1); [discriminate|].
      destruct (Z.eqb_spec k 0); [lia|]. apply Z.leb_le in Hc. lia.
  - rewrite Hd. destruct (include_details (output config)); [exact Hall | constructor].
Qed.

End Credentials.

(* ================================================================== *)
(** ** The command line *)
(* ================================================================== *)

Lemma finally_inv {H A : Type} (body : M H A) (cleanup : M H unit)
    (h h' : H) (a : A) :
  finally body cleanup h = (Ok a, h') ->
  exists h1, body h = (Ok a, h1) /\ cleanup h1 = (Ok tt, h').
Proof.
  unfold finally. destruct (body h) as [r h1].
  destruct (cleanup h1) as [[[]|e] h2] eqn:C; intros E; [|discriminate].
  injection E as -> ->. exists h1. split; [reflexivity | exact C].
Qed.

Section CommandLineFacts.
Context {RT : Runtime} {CD : Codec} {H : Type} {HD : Host H}.

(** X20.  The sources of the configuration are tried in the order file,
    standard input, environment: a source that is given hides the later
    ones; with no source, or with an environment variable that is unset
    or empty, loading fails with a [ValueError]; and whatever loading
    raises is a [ValueError], unless it is the error of reading the file
    or the standard input. *)
Theorem load_config_sources (file : option string) (stdin : bool)
    (env : option string) :
  (truthy file = true ->
   forall h, load_config file stdin env h = load_config file false None h) /\
  (truthy file = false -> stdin = true ->
   forall h, load_config file stdin env h = load_config None true None h) /\
  (truthy file = false -> stdin = false -> truthy env = false ->
   forall h,
     load_config file stdin env h
     = (Raise (mkExc ValueError
                 "Must specify one of: --config-file, --config-stdin, or --config-env"),
        h)) /\
  (truthy file = false -> stdin = false -> truthy env = true ->
   forall h,
     truthy (fst (getenv (opt_text env) h)) = false ->
     load_config file stdin env h
     = (Raise (mkExc ValueError
                 ("Environment variable '" ++ opt_text env ++ "' not found or empty")),
        snd (getenv (opt_text env) h))) /\
  (forall h e h',
     load_config file stdin env h = (Raise e, h') ->
     exc_class e = ValueError \/
     read_file (opt_text file) h = (Raise e, h') \/
     read_stdin h = (Raise e, h')).
Proof.
  unfold load_config. repeat split.
  - intros Hf h. now rewrite Hf.
  - intros Hf -> h. now rewrite Hf.
  - intros Hf -> He h. now rewrite Hf, He.
  - intros Hf -> He h Hc. rewrite Hf, He.
    unfold bind at 1. unfold bind at 1. rewrite reading_eq, Hc. reflexivity.
  - intros h e h'. unfold bind at 1.
    assert (Hparse : forall content intro h0 d h1 x,
              parse_yaml (H := H) content intro h0 = (d, h1) ->
              match d with
              | Ok data =>
                  match parse_config data with
                  | Ok c => ret c
                  | Raise e0 =>
                      lift (raise ValueError
                              ("Configuration validation failed: " ++ exc_str e0))
                  end h1
              | Raise e0 => (Raise e0, h1)
              end = (Raise x, h') ->
              exc_class x = ValueError).
    { intros content intro h0 d h1 x Hp E. unfold parse_yaml in Hp.
      destruct (yaml_safe_load content) as [data|msg].
      - unfold ret in Hp. injection Hp as <- <-.
        destruct (parse_config data); unfold ret, lift, raise in E;
          [discriminate | now injection E as <- _].
      - unfold lift, raise in Hp. injection Hp as <- <-. now injection E as <- _. }
    destruct (truthy file).
    { unfold bind at 1.
      destruct (read_file (opt_text file) h) as [[content|x] h1] eqn:R.
      - destruct (parse_yaml content _ h1) as [d h2] eqn:P. intros E.
        left. exact (Hparse _ _ _ _ _ _ P E).
      - intros E. injection E as <- <-. right. now left. }
    destruct stdin.
    { unfold bind at 1.
      destruct (read_stdin h) as [[content|x] h1] eqn:R.
      - destruct (parse_yaml content _ h1) as [d h2] eqn:P. intros E.
        left. exact (Hparse _ _ _ _ _ _ P E).
      - intros E. injection E as <- <-. right. now right. }
    destruct (truthy env).
    { unfold bind at 1. rewrite reading_eq.
      destruct (truthy (fst (getenv (opt_text env) h))).
      - destruct (parse_yaml (opt_text (fst (getenv (opt_text env) h))) _
                    (snd (getenv (opt_text env) h))) as [d h2] eqn:P.
        intros E. left. exact (Hparse _ _ _ _ _ _ P E).
      - unfold lift, raise. intros E. injection E as <- _. now left. }
    unfold lift, raise. intros E. injection E as <- _. now left.
Qed.

(** X21.  The exit code of [verify] is 0, 1, 2 or 3.  It is 3 exactly when an
    exception was raised (while loading the configuration, building the
    client, running, closing, or writing the outputs).  Otherwise the
    configuration was loaded, the run returned a result, and the code is
    that of its status: 0 only for a run that passed, whose last poll
    counts then satisfy the evaluation mode; 2 only for a run that
    reports no result at all. *)
Theorem verify_exit_code (file : option string) (stdin : bool) (env : option string)
    (output_dir : option string) (interval limit : option Z) (fuel : nat)
    (h h' : H) (code : Z) :
  verify file stdin env output_dir interval limit fuel h = (Some code, h') ->
  (code = 0 \/ code = 1 \/ code = 2 \/ code = 3) /\
  (code = 3 <->
   exists e, verification file stdin env output_dir interval limit fuel h
             = (Raise e, h')) /\
  (code <> 3 ->
   exists fc h1 client h2 vr h3,
     load_config file stdin env h = (Ok fc, h1) /\
     Verifier_init (apply_overrides fc interval limit) h1 = (Ok client, h2) /\
     run (WD := client_world client)
       (config_core (apply_overrides fc interval limit)) fuel h2
     = (Ok (Some vr), h3) /\
     code = exit_code (status vr) /\
     (code = 0 <-> status vr = PASSED) /\
     (code = 0 ->
      1 <= total_polls vr /\
      counts_pass (config_core (apply_overrides fc interval limit))
        (checks_passed vr) (checks_failed vr) = true) /\
     (code = 2 ->
      checks_passed vr = 0 /\ checks_failed vr = 0 /\ detailed_results vr = [])).
Proof.
  unfold verify.
  destruct (verification file stdin env output_dir interval limit fuel h)
    as [[[r|]|e] h0] eqn:V; intros E; try discriminate.
  - injection E as <- <-.
    assert (Hcode : exit_code (status r) <> 3) by (destruct (status r); discriminate).
    split; [destruct (status r); cbv [exit_code EXIT_SUCCESS EXIT_FAILED EXIT_TIMEOUT];
            auto|].
    split; [split; [intros E3; now destruct Hcode | intros (e & He); discriminate]|].
    intros _. unfold verification in V.
    apply bind_inv in V as (fc & h1 & Hload & V).
    apply bind_inv in V as (client & h2 & Hinit & V).
    apply bind_inv in V as (result & h3 & Hrun & V).
    apply finally_inv in Hrun as (h3' & Hrun & _).
    destruct result as [r0|]; [|unfold ret in V; discriminate].
    apply bind_inv in V as (u & h4 & _ & V).
    unfold ret in V. injection V as -> _.
    exists fc, h1, client, h2, r, h3'.
    split; [exact Hload|]. split; [exact Hinit|]. split; [exact Hrun|].
    split; [reflexivity|].
    split; [destruct (status r); cbv [exit_code EXIT_SUCCESS EXIT_FAILED EXIT_TIMEOUT];
            split; intros E0; (reflexivity || discriminate)|].
    split.
    + intros E0.
      apply (run_passed_iff (WD := client_world client) _ fuel h2 h3' r Hrun).
      destruct (status r);
        cbv [exit_code EXIT_SUCCESS EXIT_FAILED EXIT_TIMEOUT] in E0;
        (reflexivity || discriminate).
    + intros E2.
      apply (run_timeout_empty (WD := client_world client) _ fuel h2 h3' r Hrun).
      destruct (status r);
        cbv [exit_code EXIT_SUCCESS EXIT_FAILED EXIT_TIMEOUT] in E2;
        (reflexivity || discriminate).
  - injection E as <- <-. split; [auto|].
    split; [split; [intros _; now exists e | reflexivity]|].
    intros Hc. now destruct Hc.
Qed.

(** X22.  A run that passed can still exit with code 3: once the run has
    returned and the client is closed, the exit code is that of the
    status when no output directory is given or the outputs are written,
    and 3 when writing them fails. *)
Theorem verify_output_failure (file : option string) (stdin : bool)
    (env : option string) (output_dir : option string) (interval limit : option Z)
    (fuel : nat) (h h1 h2 h3 h4 : H) (fc : FullConfig) (client : HTTPClient)
    (vr : VerificationResult) :
  load_config file stdin env h = (Ok fc, h1) ->
  Verifier_init (apply_overrides fc interval limit) h1 = (Ok client, h2) ->
  run (WD := client_world client)
    (config_core (apply_overrides fc interval limit)) fuel h2
  = (Ok (Some vr), h3) ->
  HTTPClient_close client h3 = (Ok tt, h4) ->
  (truthy output_dir = false ->
   verify file stdin env output_dir interval limit fuel h
   = (Some (exit_code (status vr)), h4)) /\
  (truthy output_dir = true ->
   forall h5,
     (write_outputs vr (opt_text output_dir) h4 = (Ok tt, h5) ->
      verify file stdin env output_dir interval limit fuel h
      = (Some (exit_code (status vr)), h5)) /\
     (forall e,
        write_outputs vr (opt_text output_dir) h4 = (Raise e, h5) ->
        verify file stdin env output_dir interval limit fuel h
        = (Some EXIT_ERROR, h5))).
Proof.
  intros Hload Hinit Hrun Hclose.
  assert (Hfin : finally (run (WD := client_world client)
                            (config_core (apply_overrides fc interval limit)) fuel)
                   (HTTPClient_close client) h2 = (Ok (Some vr), h4)).
  { unfold finally. now rewrite Hrun, Hclose. }
  unfold verify, verification.
  rewrite (bind_ok _ _ _ _ _ Hload).
  rewrite (bind_ok _ _ _ _ _ Hinit).
  rewrite (bind_ok _ _ _ _ _ Hfin).
  split.
  - intros Ho. rewrite Ho. reflexivity.
  - intros Ho h5. rewrite Ho. split.
    + intros Hw. now rewrite (bind_ok _ _ _ _ _ Hw).
    + intros e Hw. now rewrite (bind_raise _ _ _ _ _ Hw).
Qed.

End CommandLineFacts.

(* ================================================================== *)
(** ** The statements on examples *)
(* ================================================================== *)

(** The counts of a run of two failing polls add up to the one check. *)
Lemma run_counts_add_up_witness :
  run (test_config [error_check] true 1 2) 5 (test_world ["50"; "50"])
  = (Ok (Some (two_polls_result [fifty_errors 0 1; fifty_errors 1 2])),
     drained_world 1) /\
  checks_passed (two_polls_result [fifty_errors 0 1; fifty_errors 1 2])
  + checks_failed (two_polls_result [fifty_errors 0 1; fifty_errors 1 2]) = 1.
Proof.
  assert (Hrun : run (test_config [error_check] true 1 2) 5 (test_world ["50"; "50"])
                 = (Ok (Some (two_polls_result [fifty_errors 0 1; fifty_errors 1 2])),
                    drained_world 1)).
  { vm_compute. reflexivity. }
  split; [exact Hrun|].
  destruct (run_counts_add_up _ _ _ _ _ Hrun) as (_ & _ & _ & E). exact E.
Defined.

(** The counts of a run of two failing polls do not satisfy ALL_PASS. *)
Lemma run_verdict_from_counts_witness :
  run (test_config [error_check] true 1 2) 5 (test_world ["50"; "50"])
  = (Ok (Some (two_polls_result [fifty_errors 0 1; fifty_errors 1 2])),
     drained_world 1) /\
  ~ (1 <= 2 /\ counts_pass (test_config [error_check] true 1 2) 0 1 = true).
Proof.
  assert (Hrun : run (test_config [error_check] true 1 2) 5 (test_world ["50"; "50"])
                 = (Ok (Some (two_polls_result [fifty_errors 0 1; fifty_errors 1 2])),
                    drained_world 1)).
  { vm_compute. reflexivity. }
  split; [exact Hrun|].
  intros Hc. apply (proj2 (run_verdict_from_counts _ _ _ _ _ Hrun)) in Hc.
  discriminate Hc.
Defined.

(** In a run of two failing polls the first poll did not pass. *)
Lemma run_stops_at_first_pass_witness :
  run (test_config [error_check] true 1 2) 5 (test_world ["50"; "50"])
  = (Ok (Some (two_polls_result [fifty_errors 0 1; fifty_errors 1 2])),
     drained_world 1) /\
  exists o,
    outcome_polls o = 2 /\
    fst (_evaluate_overall (test_config [error_check] true 1 2)
           (_get_latest_results (outcome_results o) 1)) <> PASSED.
Proof.
  assert (Hrun : run (test_config [error_check] true 1 2) 5 (test_world ["50"; "50"])
                 = (Ok (Some (two_polls_result [fifty_errors 0 1; fifty_errors 1 2])),
                    drained_world 1)).
  { vm_compute. reflexivity. }
  split; [exact Hrun|].
  destruct (run_stops_at_first_pass _ _ _ _ _ Hrun) as (o & w2 & _ & Hn & Hbefore & _).
  exists o. split; [symmetry; exact Hn|].
  apply Hbefore. split; [discriminate | reflexivity].
Defined.

(** The detailed list of a run of two polls of one check has two results. *)
Lemma run_detailed_length_witness :
  run (test_config [error_check] true 1 2) 5 (test_world ["50"; "50"])
  = (Ok (Some (two_polls_result [fifty_errors 0 1; fifty_errors 1 2])),
     drained_world 1) /\
  len (detailed_results (two_polls_result [fifty_errors 0 1; fifty_errors 1 2])) = 2.
Proof.
  assert (Hrun : run (test_config [error_check] true 1 2) 5 (test_world ["50"; "50"])
                 = (Ok (Some (two_polls_result [fifty_errors 0 1; fifty_errors 1 2])),
                    drained_world 1)).
  { vm_compute. reflexivity. }
  split; [exact Hrun|].
  exact (run_detailed_length _ _ _ _ _ Hrun).
Defined.

(** Two results in either order get the same verdict. *)
Lemma evaluate_overall_permutation_witness :
  Permutation [plain_result "a" true; plain_result "b" false]
    [plain_result "b" false; plain_result "a" true] /\
  _evaluate_overall (threshold_config 1)
    [plain_result "a" true; plain_result "b" false]
  = _evaluate_overall (threshold_config 1)
      [plain_result "b" false; plain_result "a" true].
Proof.
  assert (Hp : Permutation [plain_result "a" true; plain_result "b" false]
                 [plain_result "b" false; plain_result "a" true]) by apply perm_swap.
  split; [exact Hp|].
  exact (evaluate_overall_permutation (threshold_config 1) _ _ Hp).
Defined.

(** Three checks with a threshold of two: a poll of three successes
    passes. *)
Lemma accepted_config_can_pass_witness :
  VerificationConfig_accepted (threshold_config 2) /\
  fst (_evaluate_overall (threshold_config 2)
         [plain_result "a" true; plain_result "b" true; plain_result "c" true])
  = PASSED.
Proof.
  assert (Ha : VerificationConfig_accepted (threshold_config 2)).
  { split; [discriminate | split; reflexivity]. }
  split; [exact Ha|].
  apply (accepted_config_can_pass (threshold_config 2) 1 _ Ha).
  - split; [reflexivity | repeat constructor].
  - repeat constructor.
Defined.

(** Three checks with a threshold of four: the validator rejects the
    configuration, and a poll of three successes fails. *)
Lemma rejected_threshold_never_passes_witness :
  len (checks (threshold_config 4)) < 4 /\
  fst (_evaluate_overall (threshold_config 4)
         [plain_result "a" true; plain_result "b" true; plain_result "c" true])
  = FAILED.
Proof.
  assert (Hlt : len (checks (threshold_config 4)) < 4) by reflexivity.
  split; [exact Hlt|].
  apply (proj2 (rejected_threshold_never_passes (threshold_config 4) 1 4
                  [plain_result "a" true; plain_result "b" true; plain_result "c" true]
                  eq_refl eq_refl Hlt)).
  split; [reflexivity | repeat constructor].
Defined.

(** On two successes out of three, THRESHOLD with [min_passed = 2]
    passes, hence ANY_PASS passes. *)
Lemma evaluate_overall_modes_ordered_witness :
  1 <= 2 <= len [plain_result "a" true; plain_result "b" true; plain_result "c" false] /\
  fst (_evaluate_overall
         {| checks := checks (threshold_config 2);
            evaluation := {| mode := ANY_PASS; min_passed := None |};
            output := output (threshold_config 2);
            poll_interval := 1; timeout := 5 |}
         [plain_result "a" true; plain_result "b" true; plain_result "c" false])
  = PASSED.
Proof.
  assert (Hk : 1 <= 2 <= len [plain_result "a" true; plain_result "b" true;
                              plain_result "c" false]).
  { split; discriminate. }
  split; [exact Hk|].
  apply (proj2 (evaluate_overall_modes_ordered
                  (test_config (checks (threshold_config 2)) true 1 5)
                  (threshold_config 2)
                  {| checks := checks (threshold_config 2);
                     evaluation := {| mode := ANY_PASS; min_passed := None |};
                     output := output (threshold_config 2);
                     poll_interval := 1; timeout := 5 |}
                  2 _ eq_refl eq_refl eq_refl Hk eq_refl)).
  reflexivity.
Defined.

(** The text [TRUE] coerced to [boolean] is a boolean. *)
Lemma convert_type_typed_witness :
  _convert_type (RT := ref_runtime) (VStr "TRUE") "boolean" VNone = Ok (VBool true) /\
  exists b, VBool true = VBool b.
Proof.
  assert (Hc : _convert_type (RT := ref_runtime) (VStr "TRUE") "boolean" VNone
               = Ok (VBool true)) by reflexivity.
  split; [exact Hc|].
  destruct (convert_type_typed (RT := ref_runtime) _ _ _ _ Hc)
    as [[E _] | [[E _] | [[_ Hb] | [[E _] | (_ & _ & N & _)]]]];
    try discriminate E.
  - exact Hb.
  - now destruct N.
Defined.

(** [None] coerced to [number] with no default: the [ValueError] of the
    coercer. *)
Lemma convert_type_raises_witness :
  _convert_type (RT := ref_runtime) VNone "number" VNone
  = Raise (mkExc ValueError "Cannot convert 'None' to number and no default provided") /\
  "number" <> "string" /\ "number" <> "boolean" /\ "number" <> "json".
Proof.
  assert (Hc : _convert_type (RT := ref_runtime) VNone "number" VNone
               = Raise (mkExc ValueError
                          "Cannot convert 'None' to number and no default provided"))
    by reflexivity.
  split; [exact Hc|].
  destruct (convert_type_raises (RT := ref_runtime) _ _ _ _ Hc)
    as [(_ & _ & Ht) | (E & _)].
  - exact Ht.
  - discriminate E.
Defined.

(** The bearer client, built from a base URL with or without a trailing
    slash, requests the same URL. *)
Lemma request_url_slashes_witness :
  HTTPClient_init "http://api:8080" (client_auth bearer_client) true None (demo_host [])
  = (Ok bearer_client, demo_host []) /\
  request_url bearer_client (query error_check) = "http://api:8080/api/v1/query".
Proof.
  assert (H1 : HTTPClient_init "http://api:8080" (client_auth bearer_client) true None
                 (demo_host [])
               = (Ok bearer_client, demo_host [])) by reflexivity.
  assert (H2 : HTTPClient_init ("http://api:8080" ++ "/") (client_auth bearer_client)
                 true None (demo_host [])
               = (Ok bearer_client, demo_host [])) by reflexivity.
  split; [exact H1|].
  destruct (request_url_slashes _ _ _ _ _ _ _ _ _
              {| endpoint := "api/v1/query"; method := "POST"; headers := [];
                 body := VNone; params := []; query_timeout := 30 |}
              (query error_check) H1 H2 eq_refl)
    as (_ & E & _).
  rewrite E. reflexivity.
Defined.

(** A request of the bearer client raises. *)
Lemma request_with_credentials_raises_witness :
  validate_auth_method (client_auth bearer_client) = Ok (client_auth bearer_client) /\
  HTTPClient_request bearer_client (query error_check) (demo_host ["5"])
  = (Raise (mkExc LibraryError "'str' object has no attribute 'get_secret_value'"),
     demo_host ["5"]).
Proof.
  assert (Hv : validate_auth_method (client_auth bearer_client)
               = Ok (client_auth bearer_client)) by reflexivity.
  split; [exact Hv|].
  apply (request_with_credentials_raises bearer_client _ _ _ Hv). discriminate.
Defined.

(** With the bearer client a run of two polls fails, both results being
    the error of the secret. *)
Lemma credentials_never_pass_witness :
  exists vr h',
    run (WD := client_world bearer_client) (test_config [error_check] true 1 2) 5
      (demo_host [])
    = (Ok (Some vr), h') /\
    status vr <> PASSED /\ checks_passed vr = 0.
Proof.
  assert (Hv : validate_auth_method (client_auth bearer_client)
               = Ok (client_auth bearer_client)) by reflexivity.
  assert (Ha : VerificationConfig_accepted (test_config [error_check] true 1 2)).
  { split; [discriminate | split; reflexivity]. }
  assert (Hrun : exists vr h',
            run (WD := client_world bearer_client) (test_config [error_check] true 1 2) 5
              (demo_host [])
            = (Ok (Some vr), h')).
  { vm_compute. eexists. eexists. reflexivity. }
  destruct Hrun as (vr & h' & Hrun). exists vr, h'. split; [exact Hrun|].
  destruct (credentials_never_pass bearer_client _ _ _ _ _ _ Hv
              ltac:(discriminate) Ha Hrun) as (Hs & Hz & _).
  split; [exact Hs | exact Hz].
Defined.

(** An HTML page instead of JSON. *)
Lemma decode_response_excerpt_witness :
  decode_response {| status_error := None; response_text := "<html>";
                     response_json := None |}
  = Raise (mkExc ValueError "Expected JSON response but got: <html>").
Proof.
  destruct (decode_response_excerpt
              {| status_error := None; response_text := "<html>";
                 response_json := None |} eq_refl eq_refl)
    as (msg & E & _ & _ & Hshort).
  rewrite E, Hshort; [reflexivity|].
  vm_compute. repeat constructor.
Defined.

(** The exit code of the demonstration: the third poll passes. *)
Lemma verify_exit_code_witness :
  fst (verify (Some "cv.yaml") false None (Some "out") None None 10
         (demo_host ["50"; "20"; "5"])) = Some 0 /\
  ~ (exists e,
       verification (Some "cv.yaml") false None (Some "out") None None 10
         (demo_host ["50"; "20"; "5"])
       = (Raise e,
          snd (verify (Some "cv.yaml") false None (Some "out") None None 10
                 (demo_host ["50"; "20"; "5"])))).
Proof.
  assert (Hv : verify (Some "cv.yaml") false None (Some "out") None None 10
                 (demo_host ["50"; "20"; "5"])
               = (Some 0,
                  snd (verify (Some "cv.yaml") false None (Some "out") None None 10
                         (demo_host ["50"; "20"; "5"])))).
  { vm_compute. reflexivity. }
  split; [now rewrite Hv|].
  destruct (verify_exit_code _ _ _ _ _ _ _ _ _ _ Hv) as (_ & [H3 H3'] & _).
  intros He. apply H3' in He. discriminate He.
Defined.

(** The demonstration without an output directory: the exit code is
    that of the status of the run. *)
Lemma verify_output_failure_witness :
  exists vr h3,
    run (WD := client_world demo_client) (config_core demo_config) 10 (demo_host ["5"])
    = (Ok (Some vr), h3) /\
    verify (Some "cv.yaml") false None None None None 10 (demo_host ["5"])
    = (Some (exit_code (status vr)), h3).
Proof.
  assert (Hload : load_config (Some "cv.yaml") false None (demo_host ["5"])
                  = (Ok demo_config, demo_host ["5"])).
  { vm_compute. reflexivity. }
  assert (Hinit : Verifier_init (apply_overrides demo_config None None) (demo_host ["5"])
                  = (Ok demo_client, demo_host ["5"])).
  { vm_compute. reflexivity. }
  assert (Hrun : exists vr h3,
            run (WD := client_world demo_client)
              (config_core (apply_overrides demo_config None None)) 10 (demo_host ["5"])
            = (Ok (Some vr), h3)).
  { vm_compute. eexists. eexists. reflexivity. }
  destruct Hrun as (vr & h3 & Hrun). exists vr, h3. split; [exact Hrun|].
  apply (proj1 (verify_output_failure (Some "cv.yaml") false None None None None 10
                  _ _ _ _ h3 _ _ _ Hload Hinit Hrun eq_refl)).
  reflexivity.
Defined.
